(** * Tone synthesis and sound-level estimation of the CLUE board library

    A shallow embedding of the audio part of [clue.py] (class [Clue]):
    [_sine_sample], [_generate_sample], [start_tone], [stop_tone],
    [play_tone], [_normalized_rms] and the [sound_level] property.

    Modelling conventions.
    - Python [int] is [Z]; Python [float] is idealised as a real number
      ([R]), so [math.sin], [math.sqrt], [math.pi] and true division are
      the functions of the real-number library and [int(x)] is truncation
      towards zero.
    - The instance attributes of [Clue] that the audio code touches are the
      fields of a record; the hardware the methods drive (the PWM audio
      output, the microphone, the clock) is a log of the driver calls made
      so far, newest first.
    - Python objects have an identity: arrays and audio-output handles
      carry the number they were allocated under.
    - A Python exception is the [Raise] case of an error monad. The driver
      calls themselves ([PWMAudioOut], [RawSample], [play], [stop],
      [deinit], [record]) are taken to succeed; what can fail is what the
      Python code does around them. *)

From Stdlib Require Import ZArith List Bool Lia Reals Lra Psatz.
From Stdlib Require Import Recdef ListSet.
From Stdlib Require String Ascii.
Import String.StringSyntax.
Delimit Scope string_scope with string.
Import ListNotations.

(** ** Exceptions *)

Inductive exn : Type :=
| TypeError
| AttributeError
| ZeroDivisionError
| ValueError
| OverflowError.

Inductive result (A : Type) : Type :=
| Ok (a : A)
| Raise (e : exn).

Arguments Ok {A} a.
Arguments Raise {A} e.

Definition bind {A B : Type} (m : result A) (k : A -> result B) : result B :=
  match m with
  | Ok a => k a
  | Raise e => Raise e
  end.

Notation "x <- m ;; k" := (bind m (fun x => k))
  (at level 61, m at next level, right associativity).
Notation "m >>= k" := (bind m k) (at level 50, left associativity).

(** ** The Python primitives the audio code uses *)

Module Py.

Open Scope R_scope.

(** [int(x)] on a float: truncation towards zero. *)
Definition int (x : R) : Z :=
  if Rle_dec 0 x then Int_part x else (- Int_part (- x))%Z.

(** [a / b] on two ints: true division. *)
Definition truediv (a b : Z) : result R :=
  if (b =? 0)%Z then Raise ZeroDivisionError else Ok (IZR a / IZR b).

(** [a // b] on two ints: floor division. *)
Definition floordiv (a b : Z) : result Z :=
  if (b =? 0)%Z then Raise ZeroDivisionError else Ok (a / b)%Z.

(** [x / b] where [x] is a float and [b] an int. *)
Definition fdiv (x : R) (b : Z) : result R :=
  if (b =? 0)%Z then Raise ZeroDivisionError else Ok (x / IZR b).

(** [math.sqrt(x)]. *)
Definition sqrt (x : R) : result R :=
  if Rlt_dec x 0 then Raise ValueError else Ok (R_sqrt.sqrt x).

(** [sum(xs)] over ints, and over floats (the accumulator starts at 0). *)
Definition sum (xs : list Z) : Z := fold_left Z.add xs 0%Z.
Definition fsum (xs : list R) : R := fold_left Rplus xs 0.

(** [len(o)] where [o] may be [None]. *)
Definition len {A : Type} (o : option (list A)) : result Z :=
  match o with
  | Some l => Ok (Z.of_nat (length l))
  | None => Raise TypeError
  end.

(** Attribute access on an object that may be [None]. *)
Definition attr {A : Type} (o : option A) : result A :=
  match o with
  | Some a => Ok a
  | None => Raise AttributeError
  end.

(** The item type of [array.array("H", ...)]: unsigned 16 bits. *)
Definition is_H (v : Z) : bool := ((0 <=? v) && (v <? 65536))%Z.

(** [array.array("H", xs)] refuses an item that does not fit. *)
Definition array_H (xs : list Z) : result (list Z) :=
  if forallb is_H xs then Ok xs else Raise OverflowError.

End Py.

(** ** The generator [_sine_sample]

    A generator object is its suspended frame: the position of the
    [range(length)] iterator and [length]. *)

Record SineGen : Type := {
  gen_i : Z;
  gen_length : Z
}.

Definition tone_volume : Z := 2 ^ 15 - 1.
Definition shift : Z := 2 ^ 15.

(** The expression under [yield], over the reals. Statements about the
    exact value of a table entry are made for the lengths [start_tone]
    requests (at most 100), far from the lengths at which a rounded sine
    separates from the real one. *)
Definition sine_value (length i : Z) : Z :=
  Py.int (IZR tone_volume * sin (2 * PI * (IZR i / IZR length)) + IZR shift).

(** Calling [_sine_sample(length)] creates the generator; nothing runs yet. *)
Definition _sine_sample (length : Z) : SineGen :=
  {| gen_i := 0; gen_length := length |}.

(** [next(g)]: [None] is StopIteration. *)
Definition gen_next (g : SineGen) : option (Z * SineGen) :=
  if (gen_i g <? gen_length g)%Z
  then Some (sine_value (gen_length g) (gen_i g),
             {| gen_i := gen_i g + 1; gen_length := gen_length g |})
  else None.

Definition gen_remaining (g : SineGen) : nat :=
  Z.to_nat (gen_length g - gen_i g).

(** Consuming a generator to exhaustion, as [array.array] does with its
    initializer. *)
Function gen_list (g : SineGen) {measure gen_remaining g} : list Z :=
  match gen_next g with
  | Some (v, g') => v :: gen_list g'
  | None => []
  end.
Proof.
  intros g p v g' _ Hnext. unfold gen_next in Hnext.
  destruct (gen_i g <? gen_length g)%Z eqn:Hlt; [|discriminate].
  injection Hnext as _ <-. apply Z.ltb_lt in Hlt.
  unfold gen_remaining; simpl. lia.
Defined.

(** [n] calls of [next], stopping early at StopIteration. *)
Fixpoint gen_take (n : nat) (g : SineGen) : list Z * SineGen :=
  match n with
  | O => ([], g)
  | S n' =>
      match gen_next g with
      | Some (v, g') => let (vs, g'') := gen_take n' g' in (v :: vs, g'')
      | None => ([], g)
      end
  end.

(** ** Objects and hardware *)

(** An [array.array("H")] object. *)
Record Array : Type := {
  arr_id : nat;
  arr_data : list Z
}.

(** An [audiocore.RawSample]: it wraps the array it was given (it does not
    copy it) and has a writable [sample_rate]. *)
Record RawSample : Type := {
  rs_buffer : Array;
  sample_rate : Z
}.

Definition default_sample_rate : Z := 8000.

(** An [audiopwmio.PWMAudioOut] handle. *)
Record PWMAudioOut : Type := {
  pwm_id : nat;
  playing : bool
}.

(** Calls made to the drivers. *)
Inductive HwEvent : Type :=
| PwmOpen (id : nat)
| PwmPlay (id : nat) (buffer : nat) (rate : Z) (loop : bool)
| PwmStop (id : nat)
| PwmDeinit (id : nat)
| MicRecord (count : nat)
| Sleep (seconds : R).

(** The audio part of a [Clue] instance, with the world it acts on. *)
Record Clue : Type := {
  _sample : option PWMAudioOut;
  _samples : option Array;
  _sine_wave : option Array;
  _sine_wave_sample : option RawSample;
  next_id : nat;
  hw_log : list HwEvent
}.

(** [Clue.__init__]: the four audio attributes start as [None]. *)
Definition init : Clue :=
  {| _sample := None; _samples := None; _sine_wave := None;
     _sine_wave_sample := None; next_id := 0; hw_log := [] |}.

Definition set_sample (v : option PWMAudioOut) (c : Clue) : Clue :=
  {| _sample := v; _samples := _samples c; _sine_wave := _sine_wave c;
     _sine_wave_sample := _sine_wave_sample c; next_id := next_id c;
     hw_log := hw_log c |}.

Definition set_samples (v : option Array) (c : Clue) : Clue :=
  {| _sample := _sample c; _samples := v; _sine_wave := _sine_wave c;
     _sine_wave_sample := _sine_wave_sample c; next_id := next_id c;
     hw_log := hw_log c |}.

Definition set_sine_wave (v : option Array) (c : Clue) : Clue :=
  {| _sample := _sample c; _samples := _samples c; _sine_wave := v;
     _sine_wave_sample := _sine_wave_sample c; next_id := next_id c;
     hw_log := hw_log c |}.

Definition set_sine_wave_sample (v : option RawSample) (c : Clue) : Clue :=
  {| _sample := _sample c; _samples := _samples c; _sine_wave := _sine_wave c;
     _sine_wave_sample := v; next_id := next_id c; hw_log := hw_log c |}.

(** Allocating an object takes the next identity. *)
Definition alloc (c : Clue) : nat * Clue :=
  (next_id c,
   {| _sample := _sample c; _samples := _samples c;
      _sine_wave := _sine_wave c; _sine_wave_sample := _sine_wave_sample c;
      next_id := S (next_id c); hw_log := hw_log c |}).

Definition emit (e : HwEvent) (c : Clue) : Clue :=
  {| _sample := _sample c; _samples := _samples c;
     _sine_wave := _sine_wave c; _sine_wave_sample := _sine_wave_sample c;
     next_id := next_id c; hw_log := e :: hw_log c |}.

(** Audio-output sessions opened and not yet released. *)
Fixpoint open_sessions (log : list HwEvent) : nat :=
  match log with
  | [] => 0
  | PwmOpen _ :: l => S (open_sessions l)
  | PwmDeinit _ :: l => pred (open_sessions l)
  | _ :: l => open_sessions l
  end.

(** The two states of the tone player. *)
Inductive ToneState : Type := Idle | Playing.

Definition is_playing (c : Clue) : bool :=
  match _sample c with
  | Some h => playing h
  | None => false
  end.

Definition tone_state (c : Clue) : ToneState :=
  if is_playing c then Playing else Idle.

(** [array.array("H", init)] as a new object. *)
Definition new_array (data : list Z) (c : Clue) : result (Array * Clue) :=
  items <- Py.array_H data ;;
  let (id, c) := alloc c in
  Ok ({| arr_id := id; arr_data := items |}, c).

(** [audiopwmio.PWMAudioOut(board.SPEAKER)]. *)
Definition pwm_new (c : Clue) : PWMAudioOut * Clue :=
  let (id, c) := alloc c in
  ({| pwm_id := id; playing := false |}, emit (PwmOpen id) c).

(** [h.play(sample, loop=...)]. *)
Definition pwm_play (h : PWMAudioOut) (s : RawSample) (loop : bool)
    (c : Clue) : PWMAudioOut * Clue :=
  ({| pwm_id := pwm_id h; playing := true |},
   emit (PwmPlay (pwm_id h) (arr_id (rs_buffer s)) (sample_rate s) loop) c).

(** [h.stop()]. *)
Definition pwm_stop (h : PWMAudioOut) (c : Clue) : PWMAudioOut * Clue :=
  ({| pwm_id := pwm_id h; playing := false |}, emit (PwmStop (pwm_id h)) c).

(** [h.deinit()]. *)
Definition pwm_deinit (h : PWMAudioOut) (c : Clue) : Clue :=
  emit (PwmDeinit (pwm_id h)) c.

(** [mic.record(destination, n)]: the blocking capture writes the [n] samples
    the microphone delivers, [captured], over the start of [destination],
    in place. *)
Definition overwrite (new old : list Z) : list Z :=
  new ++ skipn (length new) old.

Definition mic_record (captured : list Z) (destination : Array) (n : Z)
    (c : Clue) : Array * Clue :=
  ({| arr_id := arr_id destination;
      arr_data := overwrite (firstn (Z.to_nat n) captured)
                            (arr_data destination) |},
   emit (MicRecord (Z.to_nat n)) c).

(** [time.sleep(seconds)]. *)
Definition sleep (seconds : R) (c : Clue) : result Clue :=
  if Rlt_dec seconds 0 then Raise ValueError else Ok (emit (Sleep seconds) c).

(** ** The methods of [Clue] *)

Definition _generate_sample (length : Z) (c : Clue) : result Clue :=
  match _sample c with
  | Some _ => Ok c
  | None =>
      r <- new_array (gen_list (_sine_sample length)) c ;;
      let (wave, c) := r in
      let c := set_sine_wave (Some wave) c in
      let (h, c) := pwm_new c in
      let c := set_sample (Some h) c in
      Ok (set_sine_wave_sample
            (Some {| rs_buffer := wave; sample_rate := default_sample_rate |})
            c)
  end.

Definition start_tone (frequency : Z) (c : Clue) : result Clue :=
  let length := 100%Z in
  length <- (if (length * frequency >? 350000)%Z
             then Py.floordiv 350000 frequency
             else Ok length) ;;
  c <- _generate_sample length c ;;
  n <- Py.len (option_map arr_data (_sine_wave c)) ;;
  rs <- Py.attr (_sine_wave_sample c) ;;
  let rs := {| rs_buffer := rs_buffer rs; sample_rate := (n * frequency)%Z |} in
  let c := set_sine_wave_sample (Some rs) c in
  h <- Py.attr (_sample c) ;;
  if negb (playing h)
  then let (h, c) := pwm_play h rs true c in Ok (set_sample (Some h) c)
  else Ok c.

Definition stop_tone (c : Clue) : result Clue :=
  match _sample c with
  | Some h =>
      if playing h
      then let (h, c) := pwm_stop h c in
           let c := pwm_deinit h c in
           Ok (set_sample None c)
      else Ok c
  | None => Ok c
  end.

Definition play_tone (frequency : Z) (duration : R) (c : Clue) : result Clue :=
  c <- start_tone frequency c ;;
  c <- sleep duration c ;;
  stop_tone c.

(** Over the reals: exact for the unsigned 16-bit buffers [sound_level]
    passes, for which the sum and the truncated mean are exact in floating
    point as well; statements about it are made for such buffers. *)
Definition _normalized_rms (values : list Z) : result R :=
  let n := Z.of_nat (length values) in
  mean <- Py.truediv (Py.sum values) n ;;
  let mean_values := Py.int mean in
  let total :=
    Py.fsum (map (fun sample => IZR (sample - mean_values)
                                * IZR (sample - mean_values))%R values) in
  variance <- Py.fdiv total n ;;
  Py.sqrt variance.

(** The [sound_level] property; [captured] is what the microphone delivers
    to this call. *)
Definition sound_level (captured : list Z) (c : Clue) : result (R * Clue) :=
  r <- match _sample c with
       | None =>
           r <- new_array (repeat 0%Z 160) c ;;
           let (buf, c) := r in
           Ok (set_samples (Some buf) c)
       | Some _ => Ok c
       end ;;
  let c := r in
  n <- Py.len (option_map arr_data (_samples c)) ;;
  buf <- Py.attr (_samples c) ;;
  let (buf, c) := mic_record captured buf n c in
  let c := set_samples (Some buf) c in
  level <- _normalized_rms (arr_data buf) ;;
  Ok (level, c).

Definition loud_sound (sound_threshold : R) (captured : list Z) (c : Clue)
  : result (bool * Clue) :=
  r <- sound_level captured c ;;
  let (level, c) := r in
  Ok (if Rlt_dec sound_threshold level then true else false, c).

(** ** Reachable states *)

(** What every state reachable from [init] satisfies: an audio handle exists
    exactly while a tone plays, it is the only open session, and the table
    and its raw sample exist with it; the sample buffer, once allocated,
    has 160 slots. *)
Definition wf (c : Clue) : Prop :=
  match _sample c with
  | Some h =>
      playing h = true /\ open_sessions (hw_log c) = 1 /\
      _sine_wave c <> None /\ _sine_wave_sample c <> None
  | None => open_sessions (hw_log c) = 0
  end /\
  match _samples c with
  | Some b => length (arr_data b) = 160
  | None => True
  end.

(** The calls of the public interface. *)
Inductive Call : Type :=
| CallStart (frequency : Z)
| CallStop
| CallPlay (frequency : Z) (duration : R)
| CallSoundLevel (captured : list Z).

Definition run_call (k : Call) (c : Clue) : result Clue :=
  match k with
  | CallStart f => start_tone f c
  | CallStop => stop_tone c
  | CallPlay f d => play_tone f d c
  | CallSoundLevel x => r <- sound_level x c ;; Ok (snd r)
  end.

Fixpoint run_calls (ks : list Call) (c : Clue) : result Clue :=
  match ks with
  | [] => Ok c
  | k :: ks' => c' <- run_call k c ;; run_calls ks' c'
  end.

(** The table length [start_tone] asks for. *)
Definition table_length (frequency : Z) : Z :=
  if (100 * frequency >? 350000)%Z then (350000 / frequency)%Z else 100%Z.

(** [range(n)]. *)
Definition range (n : Z) : list Z := map Z.of_nat (seq 0 (Z.to_nat n)).

(** What the spec's formula asks of a table entry: an integer nearest to
    the real value. *)
Definition nearest (x : R) (z : Z) : Prop := (Rabs (x - IZR z) <= 1 / 2)%R.

(** The real value of the waveform at index [i] of [length]. *)
Definition sine_real (length i : Z) : R :=
  (IZR tone_volume * sin (2 * PI * (IZR i / IZR length)) + IZR shift)%R.

(** The table [_generate_sample(L)] stores. *)
Definition sine_table (L : Z) : list Z := gen_list (_sine_sample L).

(* The table is reasoned about through its equation, never unfolded. *)
Opaque gen_list.

(** The state [start_tone] leaves when it finds no audio handle. *)
Definition started (frequency : Z) (c : Clue) : Clue :=
  let wave := {| arr_id := next_id c;
                 arr_data := sine_table (table_length frequency) |} in
  let rate := (Z.of_nat (length (arr_data wave)) * frequency)%Z in
  {| _sample := Some {| pwm_id := S (next_id c); playing := true |};
     _samples := _samples c;
     _sine_wave := Some wave;
     _sine_wave_sample := Some {| rs_buffer := wave; sample_rate := rate |};
     next_id := S (S (next_id c));
     hw_log := PwmPlay (S (next_id c)) (next_id c) rate true
               :: PwmOpen (S (next_id c)) :: hw_log c |}.

(** The length of the table a first [start_tone(frequency)] leaves in
    [_sine_wave] of a new [Clue]. *)
Definition first_table_length (frequency : Z) : result Z :=
  c <- start_tone frequency init ;;
  Py.len (option_map arr_data (_sine_wave c)).

(** Repeated start/stop cycles, one per frequency. *)
Definition cycles (fs : list Z) : list Call :=
  flat_map (fun f => [CallStart f; CallStop]) fs.

(** The state [sound_level] leaves when [buf] is the buffer it captures
    into. *)
Definition captured_into (buf : Array) (x : list Z) (c : Clue) : Clue :=
  {| _sample := _sample c;
     _samples := Some {| arr_id := arr_id buf; arr_data := x |};
     _sine_wave := _sine_wave c; _sine_wave_sample := _sine_wave_sample c;
     next_id := next_id c; hw_log := MicRecord 160 :: hw_log c |}.

(** The states in which [sound_level] reaches the capture: no audio handle
    (a buffer is then allocated), or a buffer of 160 slots from an earlier
    call. *)
Definition can_capture (c : Clue) : Prop :=
  _sample c = None \/
  exists buf, _samples c = Some buf /\ length (arr_data buf) = 160.

(** ** Buttons

    [were_pressed] turns the bit mask the [gamepad] reports into a set of
    button names; a Python set is a duplicate-free list. *)

Definition button_masks : list (String.string * Z) :=
  [("A"%string, 1%Z); ("B"%string, 2%Z)].

(** The [were_pressed] property; [pressed] is what
    [self._gamepad.get_pressed()] returns. *)
Definition were_pressed (pressed : Z) : list String.string :=
  fold_left
    (fun ret bm =>
       if (Z.land (snd bm) pressed =? 0)%Z
       then ret
       else set_add String.string_dec (fst bm) ret)
    button_masks [].

(** [button_a] and [button_b]; the pins are pulled up, [value] is the pin
    level. *)
Definition button_pressed (value : bool) : bool := negb value.

(** ** The gesture, proximity and color sensor

    The three properties switch on the engine they read; the value read is
    the driver's. *)

Record APDS9960 : Type := {
  enable_proximity : bool;
  enable_color : bool;
  enable_gesture : bool
}.

Definition proximity (reading : Z) (s : APDS9960) : Z * APDS9960 :=
  (reading,
   {| enable_proximity := true; enable_color := enable_color s;
      enable_gesture := enable_gesture s |}).

Definition color (reading : Z * Z * Z * Z) (s : APDS9960)
  : (Z * Z * Z * Z) * APDS9960 :=
  (reading,
   {| enable_proximity := enable_proximity s; enable_color := true;
      enable_gesture := enable_gesture s |}).

Definition gesture (reading : Z) (s : APDS9960) : Z * APDS9960 :=
  (reading,
   {| enable_proximity := enable_proximity s;
      enable_color := enable_color s; enable_gesture := true |}).

(** Reads of the sensor through the three properties. *)
Inductive SensorRead : Type :=
| ReadProximity (reading : Z)
| ReadColor (reading : Z * Z * Z * Z)
| ReadGesture (reading : Z).

Definition sensor_read (r : SensorRead) (s : APDS9960) : APDS9960 :=
  match r with
  | ReadProximity v => snd (proximity v s)
  | ReadColor v => snd (color v s)
  | ReadGesture v => snd (gesture v s)
  end.

Definition is_proximity (r : SensorRead) : bool :=
  match r with ReadProximity _ => true | _ => false end.
Definition is_color (r : SensorRead) : bool :=
  match r with ReadColor _ => true | _ => false end.
Definition is_gesture (r : SensorRead) : bool :=
  match r with ReadGesture _ => true | _ => false end.

(** ** The text display helper, class [_DisplaySensorData]

    Labels are objects: they live in a store and are named by their
    position in it, so that the label [__getitem__] hands out and the one
    in the displayed group are the same object. *)

Module Ui.

Inductive exn : Type :=
| ValueError
| IndexError
| RuntimeError.

Inductive result (A : Type) : Type :=
| Ok (a : A)
| Raise (e : exn).

Arguments Ok {A} a.
Arguments Raise {A} e.

Definition bind {A B : Type} (m : result A) (k : A -> result B) : result B :=
  match m with
  | Ok a => k a
  | Raise e => Raise e
  end.

(** A color argument: a tuple or a packed integer. *)
Inductive Color : Type :=
| RGB (r g b : Z)
| Packed (v : Z).

Inductive Font : Type :=
| TerminalFont
| UserFont (id : nat).

(** An [adafruit_display_text.label.Label]. *)
Record Label : Type := {
  lbl_font : Font;
  lbl_text : String.string;
  lbl_max_glyphs : Z;
  lbl_color : Color;
  lbl_scale : Z;
  lbl_x : Z;
  lbl_y : Z
}.

(** What [board.DISPLAY] shows. *)
Inductive Shown : Type := Terminal | SensorGroup.

(** A [_DisplaySensorData] instance. [sensor_group] is the content of the
    [displayio.Group], [group_scale] and [max_size] its parameters. *)
Record DisplaySensorData : Type := {
  labels : list Label;
  sensor_group : list nat;
  group_scale : Z;
  max_size : nat;
  _lines : list nat;
  _y : Z;
  _font : Font;
  shown : Shown
}.

Definition default_colors : list Color :=
  [RGB 255 0 255; RGB 0 255 0; RGB 255 0 0; RGB 0 255 255; RGB 255 255 0;
   RGB 0 0 255; RGB 255 0 180; RGB 0 180 255; RGB 255 180 0; RGB 180 0 255].

(** [if not colors]: [None] and the empty sequence are false. *)
Definition effective_colors (colors : option (list Color)) : list Color :=
  match colors with
  | None => default_colors
  | Some [] => default_colors
  | Some cs => cs
  end.

(** [xs[i]] on a Python sequence, negative indices counting from the end. *)
Definition getitem {A : Type} (xs : list A) (i : Z) : result A :=
  let n := Z.of_nat (length xs) in
  let j := if (i <? 0)%Z then (i + n)%Z else i in
  if ((0 <=? j) && (j <? n))%Z
  then match nth_error xs (Z.to_nat j) with
       | Some a => Ok a
       | None => Raise IndexError
       end
  else Raise IndexError.

(** [label.Label(...)] followed by the assignments to [x] and [y]: a new
    object in the store. *)
Definition new_label (l : Label) (d : DisplaySensorData)
  : nat * DisplaySensorData :=
  (length (labels d),
   {| labels := labels d ++ [l]; sensor_group := sensor_group d;
      group_scale := group_scale d; max_size := max_size d;
      _lines := _lines d; _y := _y d; _font := _font d; shown := shown d |}).

(** [self.sensor_group.append(obj)]; a [displayio.Group] refuses an element
    beyond its [max_size]. *)
Definition group_append (obj : nat) (d : DisplaySensorData)
  : result DisplaySensorData :=
  if (length (sensor_group d) <? max_size d)%nat
  then Ok {| labels := labels d; sensor_group := sensor_group d ++ [obj];
             group_scale := group_scale d; max_size := max_size d;
             _lines := _lines d; _y := _y d; _font := _font d;
             shown := shown d |}
  else Raise RuntimeError.

Definition set_y (y : Z) (d : DisplaySensorData) : DisplaySensorData :=
  {| labels := labels d; sensor_group := sensor_group d;
     group_scale := group_scale d; max_size := max_size d;
     _lines := _lines d; _y := y; _font := _font d; shown := shown d |}.

Definition lines_append (obj : nat) (d : DisplaySensorData)
  : DisplaySensorData :=
  {| labels := labels d; sensor_group := sensor_group d;
     group_scale := group_scale d; max_size := max_size d;
     _lines := _lines d ++ [obj]; _y := _y d; _font := _font d;
     shown := shown d |}.

Definition set_shown (v : Shown) (d : DisplaySensorData) : DisplaySensorData :=
  {| labels := labels d; sensor_group := sensor_group d;
     group_scale := group_scale d; max_size := max_size d;
     _lines := _lines d; _y := _y d; _font := _font d; shown := v |}.

(** [add_text_line(color)]; returns the label. *)
Definition add_text_line (color : Color) (d : DisplaySensorData)
  : result (nat * DisplaySensorData) :=
  let sensor_data_label :=
    {| lbl_font := _font d; lbl_text := ""%string; lbl_max_glyphs := 40;
       lbl_color := color; lbl_scale := 1; lbl_x := 0; lbl_y := _y d |} in
  let (obj, d) := new_label sensor_data_label d in
  let d := set_y (lbl_y sensor_data_label + 13)%Z d in
  bind (group_append obj d) (fun d => Ok (obj, d)).

(** The loop of [__init__] over [range(num_sensors)]. *)
Fixpoint add_lines (colors : list Color) (nums : list Z)
    (d : DisplaySensorData) : result DisplaySensorData :=
  match nums with
  | [] => Ok d
  | num :: rest =>
      bind (getitem colors num) (fun color =>
      bind (add_text_line color d) (fun r =>
      add_lines colors rest (lines_append (fst r) (snd r))))
  end.

(** [_DisplaySensorData.__init__]. The title is a byte string, its length
    the number of characters of an ASCII title. *)
Definition __init__ (title : String.string) (title_color : Color)
    (title_scale sensor_scale : Z) (font : option Font) (num_sensors : Z)
    (colors : option (list Color)) : result DisplaySensorData :=
  let colors := effective_colors colors in
  let font := match font with Some f => f | None => TerminalFont end in
  if (60 <? Z.of_nat (String.length title))%Z then Raise ValueError
  else
    let title_label :=
      {| lbl_font := font; lbl_text := title; lbl_max_glyphs := 60;
         lbl_color := title_color; lbl_scale := title_scale;
         lbl_x := 0; lbl_y := 8 |} in
    let d := {| labels := [title_label]; sensor_group := [];
                group_scale := sensor_scale; max_size := 20;
                _lines := []; _y := (lbl_y title_label + 20)%Z;
                _font := font; shown := Terminal |} in
    bind (group_append 0%nat d) (fun d =>
    add_lines colors (map Z.of_nat (seq 0 (Z.to_nat num_sensors))) d).

(** [__getitem__(item)]. *)
Definition __getitem__ (item : Z) (d : DisplaySensorData) : result nat :=
  getitem (_lines d) item.

Definition show (d : DisplaySensorData) : DisplaySensorData :=
  set_shown SensorGroup d.

Definition show_terminal (d : DisplaySensorData) : DisplaySensorData :=
  set_shown Terminal d.

(** The labels on the screen, in drawing order. *)
Definition on_screen (d : DisplaySensorData) : list nat :=
  match shown d with
  | SensorGroup => sensor_group d
  | Terminal => []
  end.

End Ui.

(** [Clue.display_sensor_data]. *)
Definition display_sensor_data (title : String.string)
    (title_color : Ui.Color) (title_scale num_sensors sensor_scale : Z)
    (font : option Ui.Font) (colors : option (list Ui.Color))
  : Ui.result Ui.DisplaySensorData :=
  Ui.__init__ title title_color title_scale sensor_scale font num_sensors
    colors.

(** The label [add_text_line] creates at height [y]. *)
Definition line_label (font : Ui.Font) (color : Ui.Color) (y : Z) : Ui.Label :=
  {| Ui.lbl_font := font; Ui.lbl_text := ""%string; Ui.lbl_max_glyphs := 40;
     Ui.lbl_color := color; Ui.lbl_scale := 1; Ui.lbl_x := 0; Ui.lbl_y := y |}.

(** Line [k] of a new display: color [colors[k]], 13 apart below y = 28. *)
Definition init_line (font : Ui.Font) (colors : list Ui.Color) (k : nat)
  : Ui.Label :=
  line_label font (nth k colors (Ui.Packed 0)) (28 + 13 * Z.of_nat k).

Definition ui_font (font : option Ui.Font) : Ui.Font :=
  match font with Some f => f | None => Ui.TerminalFont end.

(** The truncated mean and the level [_normalized_rms] computes from it. *)
Definition mean_value (values : list Z) : Z :=
  Z.quot (Py.sum values) (Z.of_nat (length values)).

Definition squared_deviations (values : list Z) : Z :=
  Py.sum (map (fun s => (s - mean_value values) * (s - mean_value values))%Z
              values).

Definition rms (values : list Z) : R :=
  sqrt (IZR (squared_deviations values) / IZR (Z.of_nat (length values))).

(** ** Generator objects beside the [Clue] object

    Generators are lazy: a value is computed when [next] is called, which
    may be long after the call that created the generator, with other
    generators and the methods of [Clue] running in between. A world holds
    the [Clue] object and the generator objects alive, named by position;
    a schedule is any sequence of steps on them. *)









(** ** The generator *)

Lemma gen_list_from (L : Z) (n : nat) (i : Z) :
  (0 <= i)%Z -> Z.to_nat (L - i) = n ->
  gen_list {| gen_i := i; gen_length := L |} =
  map (sine_value L) (map Z.of_nat (seq (Z.to_nat i) n)).
Proof.
  revert i. induction n as [|n IH]; intros i Hi Hn.
  - rewrite gen_list_equation. unfold gen_next; simpl.
    destruct (i <? L)%Z eqn:Hlt; [apply Z.ltb_lt in Hlt; lia | reflexivity].
  - rewrite gen_list_equation. unfold gen_next; simpl.
    destruct (i <? L)%Z eqn:Hlt; [|apply Z.ltb_ge in Hlt; lia].
    rewrite Z2Nat.id by lia. f_equal.
    rewrite (IH (i + 1)%Z) by lia.
    replace (Z.to_nat (i + 1)) with (S (Z.to_nat i)) by lia. reflexivity.
Qed.

Lemma gen_list_sine_sample (L : Z) :
  gen_list (_sine_sample L) = map (sine_value L) (range L).
Proof.
  unfold _sine_sample, range.
  rewrite (gen_list_from L (Z.to_nat L) 0%Z); [reflexivity | lia |].
  f_equal; lia.
Qed.

Lemma range_length (n : Z) : length (range n) = Z.to_nat n.
Proof. unfold range. now rewrite length_map, length_seq. Qed.

Lemma range_nth (n i : Z) (d : Z) :
  (0 <= i < n)%Z -> nth (Z.to_nat i) (range n) d = i.
Proof.
  intros Hi. unfold range.
  rewrite nth_indep with (d' := Z.of_nat 0)
    by (rewrite length_map, length_seq; lia).
  rewrite map_nth, seq_nth by lia. lia.
Qed.

Lemma gen_list_length (L : Z) :
  length (gen_list (_sine_sample L)) = Z.to_nat L.
Proof. now rewrite gen_list_sine_sample, length_map, range_length. Qed.

Lemma gen_take_from (L : Z) (n : nat) (i : Z) (k : nat) :
  (0 <= i)%Z -> Z.to_nat (L - i) = n -> (n <= k)%nat ->
  gen_take k {| gen_i := i; gen_length := L |} =
  (gen_list {| gen_i := i; gen_length := L |},
   {| gen_i := Z.max i L; gen_length := L |}).
Proof.
  revert i k. induction n as [|n IH]; intros i k Hi Hn Hk.
  - rewrite gen_list_equation.
    destruct k; simpl; unfold gen_next; simpl.
    + replace (Z.max i L) with i by lia.
      destruct (i <? L)%Z eqn:Hlt; [apply Z.ltb_lt in Hlt; lia | reflexivity].
    + replace (Z.max i L) with i by lia.
      destruct (i <? L)%Z eqn:Hlt; [apply Z.ltb_lt in Hlt; lia | reflexivity].
  - destruct k as [|k]; [lia|].
    rewrite gen_list_equation. simpl. unfold gen_next; simpl.
    destruct (i <? L)%Z eqn:Hlt; [|apply Z.ltb_ge in Hlt; lia].
    rewrite (IH (i + 1)%Z k) by lia.
    replace (Z.max (i + 1) L) with (Z.max i L) by lia. reflexivity.
Qed.

(** ** Truncation and the arithmetic of [_normalized_rms] *)

Section Truncation.

Open Scope R_scope.

Lemma int_nonneg (x : R) : 0 <= x -> Py.int x = Int_part x.
Proof. intros Hx. unfold Py.int. destruct (Rle_dec 0 x); tauto. Qed.

Lemma Int_part_between (x : R) (lo hi : Z) :
  IZR lo <= x -> x <= IZR hi -> (lo <= Int_part x <= hi)%Z.
Proof.
  intros Hlo Hhi. destruct (base_Int_part x) as [Hle Hgt]. split.
  - apply Z.lt_succ_r, lt_IZR. rewrite succ_IZR. lra.
  - apply le_IZR. lra.
Qed.

Lemma Int_part_quotient (a b : Z) :
  (0 < b)%Z -> Int_part (IZR a / IZR b) = (a / b)%Z.
Proof.
  intros Hb. symmetry. apply Int_part_spec.
  assert (HbR : 0 < IZR b) by now apply IZR_lt.
  pose proof (Z.div_mod a b ltac:(lia)) as Hdm.
  pose proof (Z.mod_pos_bound a b Hb) as [Hm0 Hm1].
  assert (Ha : IZR a = IZR b * IZR (a / b) + IZR (a mod b)).
  { rewrite <- mult_IZR, <- plus_IZR. now f_equal. }
  apply IZR_le in Hm0. apply IZR_lt in Hm1.
  assert (Hq : IZR a / IZR b = IZR (a / b) + IZR (a mod b) / IZR b).
  { rewrite Ha. field. lra. }
  assert (0 <= IZR (a mod b) / IZR b < 1).
  { split.
    - apply Rmult_le_pos; [lra | left; now apply Rinv_0_lt_compat].
    - apply Rmult_lt_reg_r with (IZR b); [lra|].
      unfold Rdiv. rewrite Rmult_assoc, Rinv_l by lra. lra. }
  lra.
Qed.

(** [int(a / b)] on ints is the quotient truncated towards zero. *)
Lemma int_truediv (a b : Z) :
  (0 < b)%Z -> Py.int (IZR a / IZR b) = Z.quot a b.
Proof.
  intros Hb. assert (HbR : 0 < IZR b) by now apply IZR_lt.
  unfold Py.int. destruct (Rle_dec 0 (IZR a / IZR b)) as [Hr | Hr].
  - assert (0 <= a)%Z.
    { apply le_IZR. apply Rmult_le_compat_r with (r := IZR b) in Hr; [|lra].
      unfold Rdiv in Hr. rewrite Rmult_assoc, Rinv_l in Hr by lra. lra. }
    rewrite Int_part_quotient by lia. symmetry. apply Z.quot_div_nonneg; lia.
  - assert (a < 0)%Z.
    { apply Z.lt_nge. intros Ha. apply Hr. apply IZR_le in Ha.
      apply Rmult_le_pos; [lra | left; now apply Rinv_0_lt_compat]. }
    replace (- (IZR a / IZR b)) with (IZR (- a) / IZR b)
      by (rewrite opp_IZR; field; lra).
    rewrite Int_part_quotient by lia.
    rewrite <- (Z.quot_div_nonneg (- a) b) by lia.
    rewrite Z.quot_opp_l by lia. lia.
Qed.

Lemma fsum_acc (xs : list R) (acc : R) :
  fold_left Rplus xs acc = acc + Py.fsum xs.
Proof.
  unfold Py.fsum. revert acc. induction xs as [|x xs IH]; intros acc; simpl.
  - lra.
  - rewrite IH, (IH (0 + x)). lra.
Qed.

Lemma sum_acc (xs : list Z) (acc : Z) :
  fold_left Z.add xs acc = (acc + Py.sum xs)%Z.
Proof.
  unfold Py.sum. revert acc. induction xs as [|x xs IH]; intros acc; simpl.
  - lia.
  - rewrite IH, (IH x). lia.
Qed.

Lemma sum_cons (x : Z) (xs : list Z) :
  Py.sum (x :: xs) = (x + Py.sum xs)%Z.
Proof. unfold Py.sum at 1. simpl. now rewrite sum_acc. Qed.

Lemma fsum_cons (x : R) (xs : list R) :
  Py.fsum (x :: xs) = x + Py.fsum xs.
Proof. unfold Py.fsum at 1. simpl. rewrite fsum_acc. lra. Qed.

(** The float sum of squared deviations is the integer one. *)
Lemma fsum_squares (m : Z) (xs : list Z) :
  Py.fsum (map (fun s => IZR (s - m) * IZR (s - m)) xs) =
  IZR (Py.sum (map (fun s => (s - m) * (s - m))%Z xs)).
Proof.
  induction xs as [|x xs IH]; [reflexivity|].
  simpl map. rewrite fsum_cons, sum_cons, IH, plus_IZR, mult_IZR.
  reflexivity.
Qed.

Lemma sum_squares_nonneg (m : Z) (xs : list Z) :
  (0 <= Py.sum (map (fun s => (s - m) * (s - m))%Z xs))%Z.
Proof.
  induction xs as [|x xs IH]; [unfold Py.sum; simpl; lia|].
  simpl map. rewrite sum_cons.
  pose proof (Z.square_nonneg (x - m)). lia.
Qed.

Lemma sum_repeat (v : Z) (n : nat) :
  Py.sum (repeat v n) = (Z.of_nat n * v)%Z.
Proof.
  induction n as [|n IH]; [reflexivity|].
  simpl repeat. rewrite sum_cons, IH. lia.
Qed.

Lemma sum_squares_repeat (v : Z) (n : nat) :
  Py.sum (map (fun s => (s - v) * (s - v))%Z (repeat v n)) = 0%Z.
Proof.
  induction n as [|n IH]; [reflexivity|].
  simpl. rewrite sum_cons, IH. lia.
Qed.

Lemma sum_nonneg (xs : list Z) :
  Forall (fun v => 0 <= v < 65536)%Z xs -> (0 <= Py.sum xs)%Z.
Proof.
  induction 1 as [|x xs Hx _ IH]; [unfold Py.sum; simpl; lia|].
  rewrite sum_cons. lia.
Qed.

(** [_normalized_rms] in closed form. *)
Lemma normalized_rms_closed (values : list Z) :
  values <> [] ->
  let n := Z.of_nat (length values) in
  let m := Z.quot (Py.sum values) n in
  _normalized_rms values =
  Ok (sqrt (IZR (Py.sum (map (fun s => (s - m) * (s - m))%Z values))
            / IZR n)).
Proof.
  intros Hne n m.
  assert (Hn : (0 < n)%Z) by (destruct values; [congruence | subst n; simpl; lia]).
  unfold _normalized_rms, Py.truediv, Py.fdiv. fold n.
  destruct (n =? 0)%Z eqn:Hz; [apply Z.eqb_eq in Hz; lia|]. simpl.
  rewrite int_truediv by assumption. fold m.
  rewrite fsum_squares. unfold Py.sqrt.
  destruct (Rlt_dec _ 0) as [Hneg|_]; [|reflexivity].
  exfalso. pose proof (sum_squares_nonneg m values) as Hs.
  apply IZR_le in Hs. apply IZR_lt in Hn.
  assert (0 <= IZR (Py.sum (map (fun s => (s - m) * (s - m))%Z values)) / IZR n).
  { apply Rmult_le_pos; [lra | left; now apply Rinv_0_lt_compat]. }
  lra.
Qed.

End Truncation.

(** ** The waveform values *)

Section Waveform.

Open Scope R_scope.

Lemma sine_value_real (L i : Z) : sine_value L i = Py.int (sine_real L i).
Proof. reflexivity. Qed.

Lemma sine_real_bounds (L i : Z) : 1 <= sine_real L i <= 65535.
Proof.
  unfold sine_real.
  pose proof (SIN_bound (2 * PI * (IZR i / IZR L))) as [Hlo Hhi].
  replace (IZR tone_volume) with 32767
    by (unfold tone_volume; simpl; lra).
  replace (IZR shift) with 32768 by (unfold shift; simpl; lra).
  lra.
Qed.

Lemma sine_value_floor (L i : Z) : sine_value L i = Int_part (sine_real L i).
Proof.
  rewrite sine_value_real. apply int_nonneg.
  pose proof (sine_real_bounds L i). lra.
Qed.

Lemma sine_value_range (L i : Z) : (1 <= sine_value L i <= 65535)%Z.
Proof.
  rewrite sine_value_floor.
  apply Int_part_between; apply sine_real_bounds.
Qed.

Lemma sine_table_is_H (L : Z) :
  forallb Py.is_H (gen_list (_sine_sample L)) = true.
Proof.
  rewrite gen_list_sine_sample. apply forallb_forall.
  intros v Hv. apply in_map_iff in Hv as (i & <- & _).
  pose proof (sine_value_range L i). unfold Py.is_H.
  apply andb_true_iff. split; [apply Z.leb_le | apply Z.ltb_lt]; lia.
Qed.

Lemma sine_table_nth (L i d : Z) :
  (0 <= i < L)%Z ->
  nth (Z.to_nat i) (gen_list (_sine_sample L)) d = sine_value L i.
Proof.
  intros Hi. rewrite gen_list_sine_sample.
  rewrite nth_indep with (d' := sine_value L d)
    by (rewrite length_map, range_length; lia).
  rewrite map_nth. now rewrite range_nth.
Qed.

End Waveform.

(** ** The methods, case by case *)

Lemma requested_length (frequency : Z) :
  (if (100 * frequency >? 350000)%Z
   then Py.floordiv 350000 frequency
   else Ok 100%Z) = Ok (table_length frequency).
Proof.
  unfold table_length, Py.floordiv.
  destruct (100 * frequency >? 350000)%Z eqn:Hgt; [|reflexivity].
  destruct (frequency =? 0)%Z eqn:Hz; [|reflexivity].
  apply Z.eqb_eq in Hz. subst. discriminate.
Qed.

Lemma generate_sample_idle (L : Z) (c : Clue) :
  _sample c = None ->
  _generate_sample L c =
  Ok {| _sample := Some {| pwm_id := S (next_id c); playing := false |};
        _samples := _samples c;
        _sine_wave := Some {| arr_id := next_id c; arr_data := sine_table L |};
        _sine_wave_sample :=
          Some {| rs_buffer := {| arr_id := next_id c;
                                  arr_data := sine_table L |};
                  sample_rate := default_sample_rate |};
        next_id := S (S (next_id c));
        hw_log := PwmOpen (S (next_id c)) :: hw_log c |}.
Proof.
  intros Hs. unfold _generate_sample. rewrite Hs.
  unfold new_array, Py.array_H. rewrite sine_table_is_H. reflexivity.
Qed.

Lemma generate_sample_held (L : Z) (c : Clue) (h : PWMAudioOut) :
  _sample c = Some h -> _generate_sample L c = Ok c.
Proof. intros Hs. unfold _generate_sample. now rewrite Hs. Qed.

Lemma start_tone_idle (frequency : Z) (c : Clue) :
  _sample c = None -> start_tone frequency c = Ok (started frequency c).
Proof.
  intros Hs. unfold start_tone. rewrite requested_length. simpl bind.
  rewrite generate_sample_idle by assumption. reflexivity.
Qed.

Lemma start_tone_held (frequency : Z) (c : Clue)
    (h : PWMAudioOut) (wave : Array) (rs : RawSample) :
  _sample c = Some h -> playing h = true ->
  _sine_wave c = Some wave -> _sine_wave_sample c = Some rs ->
  start_tone frequency c =
  Ok (set_sine_wave_sample
        (Some {| rs_buffer := rs_buffer rs;
                 sample_rate :=
                   (Z.of_nat (length (arr_data wave)) * frequency)%Z |}) c).
Proof.
  intros Hs Hp Hw Hrs. unfold start_tone. rewrite requested_length. simpl bind.
  rewrite (generate_sample_held _ _ _ Hs). simpl bind.
  rewrite Hw, Hrs. simpl. rewrite Hs. simpl. now rewrite Hp.
Qed.

Lemma stop_tone_idle (c : Clue) : _sample c = None -> stop_tone c = Ok c.
Proof. intros Hs. unfold stop_tone. now rewrite Hs. Qed.

Lemma stop_tone_held (c : Clue) (h : PWMAudioOut) :
  _sample c = Some h -> playing h = true ->
  stop_tone c =
  Ok {| _sample := None; _samples := _samples c; _sine_wave := _sine_wave c;
        _sine_wave_sample := _sine_wave_sample c; next_id := next_id c;
        hw_log := PwmDeinit (pwm_id h) :: PwmStop (pwm_id h) :: hw_log c |}.
Proof. intros Hs Hp. unfold stop_tone. rewrite Hs, Hp. reflexivity. Qed.

Lemma sine_table_length (L : Z) : length (sine_table L) = Z.to_nat L.
Proof. apply gen_list_length. Qed.

(** ** The invariant *)

Lemma wf_init : wf init.
Proof. unfold wf; simpl. auto. Qed.

Lemma wf_started (frequency : Z) (c : Clue) :
  wf c -> _sample c = None -> wf (started frequency c).
Proof.
  unfold wf. intros [Ha Hb] Hs. rewrite Hs in Ha. simpl.
  rewrite Ha. repeat split; try discriminate. exact Hb.
Qed.

Lemma wf_start_tone (frequency : Z) (c : Clue) :
  wf c -> exists c', start_tone frequency c = Ok c' /\ wf c' /\
                     is_playing c' = true.
Proof.
  intros Hwf. destruct (_sample c) as [h|] eqn:Hs.
  - pose proof Hwf as [Ha Hb]. rewrite Hs in Ha.
    destruct Ha as (Hp & Ho & Hw & Hrs).
    destruct (_sine_wave c) as [wave|] eqn:Ew; [|congruence].
    destruct (_sine_wave_sample c) as [rs|] eqn:Ers; [|congruence].
    eexists. split; [apply (start_tone_held _ _ _ _ _ Hs Hp Ew Ers)|].
    unfold wf, is_playing; simpl. rewrite Hs, Ew.
    repeat split; auto; discriminate.
  - exists (started frequency c). split; [now apply start_tone_idle|].
    split; [now apply wf_started | reflexivity].
Qed.

Lemma wf_stop_tone (c : Clue) :
  wf c -> exists c', stop_tone c = Ok c' /\ wf c' /\ _sample c' = None /\
                     open_sessions (hw_log c') = 0.
Proof.
  intros Hwf. destruct (_sample c) as [h|] eqn:Hs.
  - pose proof Hwf as [Ha Hb]. rewrite Hs in Ha.
    destruct Ha as (Hp & Ho & _).
    eexists. split; [apply (stop_tone_held _ _ Hs Hp)|].
    unfold wf; simpl. rewrite Ho. auto.
  - exists c. split; [now apply stop_tone_idle|].
    pose proof Hwf as [Ha _]. rewrite Hs in Ha. auto.
Qed.

(** ** Waveform table: values and determinism *)

Section SineTable.

Open Scope R_scope.

Lemma sqrt2_bounds : 14142 / 10000 < sqrt 2 < 141422 / 100000.
Proof.
  assert (H2 : 0 <= 2) by lra.
  pose proof (sqrt_sqrt 2 H2) as Hs. pose proof (sqrt_pos 2) as Hp.
  split; nra.
Qed.

Lemma sine_real_8_1 : sine_real 8 1 = 32767 * (1 / sqrt 2) + 32768.
Proof.
  unfold sine_real.
  replace (2 * PI * (1 / 8)) with (PI / 4) by field.
  rewrite sin_PI4.
  replace (IZR tone_volume) with 32767 by (unfold tone_volume; simpl; lra).
  replace (IZR shift) with 32768 by (unfold shift; simpl; lra).
  reflexivity.
Qed.

Lemma sine_real_8_1_bounds :
  55937 + 1 / 2 < sine_real 8 1 < 55938.
Proof.
  rewrite sine_real_8_1. pose proof sqrt2_bounds as [Hlo Hhi].
  assert (Ht : 1 / sqrt 2 * sqrt 2 = 1) by (field; lra).
  generalize dependent (1 / sqrt 2). generalize dependent (sqrt 2).
  intros s Hlo Hhi t Ht. split; nra.
Qed.

Lemma sine_value_8_1 : sine_value 8 1 = 55937%Z.
Proof.
  rewrite sine_value_floor. symmetry. apply Int_part_spec.
  pose proof sine_real_8_1_bounds. lra.
Qed.

End SineTable.

(** C5, as stated, fails: at length 8, index 1 the real value is
    32767 / sqrt 2 + 32768 = 55937.77..., the table holds 55937 (the code
    truncates with [int]), and 55937 is not a nearest integer to it. *)
Lemma sine_table_not_rounded :
  nth 1 (sine_table 8) 0%Z = 55937%Z /\
  ~ nearest (sine_real 8 1) (nth 1 (sine_table 8) 0%Z).
Proof.
  assert (Hn : nth 1 (sine_table 8) 0%Z = 55937%Z).
  { unfold sine_table. rewrite <- sine_value_8_1.
    apply (sine_table_nth 8 1 0). lia. }
  split; [exact Hn|]. rewrite Hn. unfold nearest.
  pose proof sine_real_8_1_bounds as [Hlo Hhi].
  rewrite Rabs_pos_eq by lra. lra.
Qed.

Lemma table_length_le_100 (f : Z) : (table_length f <= 100)%Z.
Proof.
  unfold table_length. destruct (100 * f >? 350000)%Z eqn:Hgt; [|lia].
  apply Z.gtb_lt in Hgt.
  assert (350000 / f < 100)%Z by (apply Z.div_lt_upper_bound; lia). lia.
Qed.

(** C5, amended: for every table length [L] from 1 to 100 (the lengths
    [start_tone] requests, see [table_length_le_100]) and index [i] in
    [0, L), the generated value is the real value
    (2^15 - 1) * sin(2 pi i / L) + 2^15 truncated to an integer (the largest
    integer not above it), and it lies in [0, 2^16). *)
Theorem sine_table_truncated (L i : Z) :
  (0 < L <= 100)%Z -> (0 <= i < L)%Z ->
  let v := nth (Z.to_nat i) (sine_table L) 0%Z in
  v = Py.int (sine_real L i) /\
  (IZR v <= sine_real L i < IZR v + 1)%R /\
  (0 <= v < 2 ^ 16)%Z /\
  length (sine_table L) = Z.to_nat L.
Proof.
  intros HL Hi v. subst v. unfold sine_table.
  rewrite sine_table_nth by assumption.
  split; [apply sine_value_real|].
  split.
  - rewrite sine_value_floor.
    destruct (base_Int_part (sine_real L i)) as [Hle Hgt]. lra.
  - split; [|apply gen_list_length].
    pose proof (sine_value_range L i). change (2 ^ 16)%Z with 65536%Z. lia.
Qed.

Lemma sine_table_truncated_witness :
  (0 <= nth (Z.to_nat 1) (sine_table 8) 0%Z < 2 ^ 16)%Z.
Proof.
  apply (sine_table_truncated 8 1); lia.
Defined.







(** ** Table length *)

Lemma first_table_length_eq (frequency : Z) :
  first_table_length frequency =
  Ok (Z.of_nat (Z.to_nat (table_length frequency))).
Proof.
  unfold first_table_length.
  rewrite start_tone_idle by reflexivity. simpl.
  now rewrite sine_table_length.
Qed.

Lemma table_length_min (f : Z) :
  (0 < f)%Z -> table_length f = Z.min 100 (350000 / f).
Proof.
  intros Hf. unfold table_length.
  destruct (100 * f >? 350000)%Z eqn:Hgt.
  - apply Z.gtb_lt in Hgt.
    assert (350000 / f < 100)%Z by (apply Z.div_lt_upper_bound; lia). lia.
  - assert (100 * f <= 350000)%Z
      by (destruct (Z.gtb_spec (100 * f) 350000); [discriminate | lia]).
    assert (100 <= 350000 / f)%Z by (apply Z.div_le_lower_bound; lia). lia.
Qed.

(** C2, as stated, fails: above 350000 Hz the first table has length 0, so
    no minimum of 1 holds. *)
Lemma first_table_length_below_one :
  exists L : Z, first_table_length 350001 = Ok L /\ (L < 1)%Z.
Proof.
  exists 0%Z. split; [|lia]. rewrite first_table_length_eq. reflexivity.
Qed.

(** C2, amended: for every positive integer frequency [f], the first
    [start_tone(f)] builds a table of length min(100, 350000 // f): exactly
    100 when 100 * f <= 350000, otherwise 350000 // f; length * f <= 350000
    in every case; the length is at least 1 exactly when f <= 350000. *)
Theorem first_table_length_spec (f : Z) :
  (0 < f)%Z ->
  exists L : Z,
    first_table_length f = Ok L /\
    L = Z.min 100 (350000 / f) /\
    ((100 * f <= 350000)%Z -> L = 100%Z) /\
    ((350000 < 100 * f)%Z -> L = (350000 / f)%Z) /\
    (L * f <= 350000)%Z /\
    ((1 <= L)%Z <-> (f <= 350000)%Z).
Proof.
  intros Hf. exists (table_length f).
  pose proof (Z.div_pos 350000 f ltac:(lia) Hf) as Hq.
  pose proof (Z.mul_div_le 350000 f Hf) as Hmul.
  pose proof (table_length_min f Hf) as Hmin.
  split.
  - rewrite first_table_length_eq, Z2Nat.id by lia. reflexivity.
  - split; [exact Hmin|].
    assert (Hsmall : (100 * f <= 350000)%Z -> (100 <= 350000 / f)%Z)
      by (intros; apply Z.div_le_lower_bound; lia).
    assert (Hbig : (350000 < 100 * f)%Z -> (350000 / f < 100)%Z)
      by (intros; apply Z.div_lt_upper_bound; lia).
    destruct (Z.le_gt_cases (100 * f) 350000) as [Hc|Hc].
    + specialize (Hsmall Hc). rewrite Z.min_l in Hmin by lia.
      rewrite Hmin. repeat split; intros; lia.
    + specialize (Hbig Hc). rewrite Z.min_r in Hmin by lia.
      rewrite Hmin. split; [lia|]. split; [reflexivity|].
      split; [rewrite Z.mul_comm; exact Hmul|]. split.
      * intros HL. destruct (Z.le_gt_cases f 350000) as [|Hgt]; [assumption|].
        rewrite (Z.div_small 350000 f) in HL by lia. lia.
      * intros Hle. apply Z.div_le_lower_bound; lia.
Qed.

Lemma first_table_length_spec_witness :
  exists L : Z, first_table_length 440 = Ok L /\ L = Z.min 100 (350000 / 440).
Proof.
  destruct (first_table_length_spec 440 ltac:(lia)) as (L & H1 & H2 & _).
  exists L. split; assumption.
Defined.

(** ** The tone player *)

Lemma wf_idle (c : Clue) : wf c -> (tone_state c = Idle <-> _sample c = None).
Proof.
  intros [Ha _]. unfold tone_state, is_playing.
  destruct (_sample c) as [h|]; [|tauto].
  destruct Ha as (-> & _). split; discriminate.
Qed.

Lemma wf_playing (c : Clue) :
  wf c -> tone_state c = Playing ->
  exists h wave rs,
    _sample c = Some h /\ playing h = true /\
    open_sessions (hw_log c) = 1 /\
    _sine_wave c = Some wave /\ _sine_wave_sample c = Some rs.
Proof.
  intros [Ha _]. unfold tone_state, is_playing.
  destruct (_sample c) as [h|]; [|discriminate].
  destruct Ha as (Hp & Ho & Hw & Hrs). intros _.
  destruct (_sine_wave c) as [wave|]; [|congruence].
  destruct (_sine_wave_sample c) as [rs|]; [|congruence].
  exists h, wave, rs. auto.
Qed.

Lemma overwrite_length (new old : list Z) :
  (length new <= length old)%nat ->
  length (overwrite new old) = length old.
Proof.
  intros Hle. unfold overwrite. rewrite length_app, length_skipn. lia.
Qed.

Lemma normalized_rms_ok (values : list Z) :
  values <> [] -> exists level, _normalized_rms values = Ok level.
Proof.
  intros Hne. eexists. apply (normalized_rms_closed values Hne).
Qed.

(** [sound_level] keeps the invariant whenever it returns. *)
Lemma wf_sound_level (x : list Z) (c : Clue) (level : R) (c' : Clue) :
  wf c -> sound_level x c = Ok (level, c') -> wf c'.
Proof.
  intros [Ha Hb]. unfold sound_level.
  destruct (_sample c) as [h|] eqn:Hs.
  - cbn [bind]. destruct (_samples c) as [buf|] eqn:Hbuf; [|discriminate].
    cbn [option_map Py.len Py.attr bind]. unfold mic_record.
    destruct (_normalized_rms _); [|discriminate].
    cbn [bind]. intros H. injection H as _ <-.
    unfold wf. cbn. rewrite Hs. split; [exact Ha|].
    rewrite overwrite_length; [exact Hb|].
    rewrite length_firstn, Nat2Z.id. lia.
  - unfold new_array.
    change (Py.array_H (repeat 0%Z 160)) with (@Ok (list Z) (repeat 0%Z 160)).
    pose proof (repeat_length 0%Z 160) as Hz.
    generalize dependent (repeat 0%Z 160). intros zeros Hz.
    cbn [bind alloc set_samples _samples option_map arr_data Py.len Py.attr].
    unfold mic_record. destruct (_normalized_rms _); [|discriminate].
    cbn [bind]. intros H. injection H as _ <-.
    unfold wf. cbn [_sample _samples hw_log set_samples emit arr_data].
    rewrite Hs. split; [exact Ha|].
    rewrite overwrite_length; [exact Hz|].
    rewrite length_firstn, Nat2Z.id. lia.
Qed.

Lemma wf_play_tone (f : Z) (d : R) (c c' : Clue) :
  wf c -> play_tone f d c = Ok c' -> wf c'.
Proof.
  intros Hwf. unfold play_tone.
  destruct (wf_start_tone f c Hwf) as (c1 & -> & Hwf1 & _). cbn [bind].
  unfold sleep. destruct (Rlt_dec d 0); [discriminate|]. cbn [bind].
  destruct (wf_stop_tone (emit (Sleep d) c1) Hwf1) as (c2 & -> & Hwf2 & _).
  intros H. now injection H as <-.
Qed.

(** Every state the public interface reaches from a new [Clue] satisfies
    the invariant. *)
Lemma wf_run_calls (ks : list Call) (c c' : Clue) :
  wf c -> run_calls ks c = Ok c' -> wf c'.
Proof.
  revert c. induction ks as [|k ks IH]; intros c Hwf; simpl.
  - intros H. now injection H as <-.
  - destruct (run_call k c) as [c1|e] eqn:Hk; [|discriminate].
    cbn [bind]. apply IH. destruct k as [f| |f d|x]; simpl in Hk.
    + destruct (wf_start_tone f c Hwf) as (c2 & H2 & Hwf2 & _). congruence.
    + destruct (wf_stop_tone c Hwf) as (c2 & H2 & Hwf2 & _). congruence.
    + now apply (wf_play_tone f d c).
    + destruct (sound_level x c) as [[level c2]|e] eqn:Hsl; [|discriminate].
      simpl in Hk. injection Hk as <-. now apply (wf_sound_level x c level).
Qed.

(** Two starts in a row leave one session. *)
Lemma start_twice_one_session (f1 f2 : Z) (c : Clue) :
  wf c ->
  exists c',
    run_calls [CallStart f1; CallStart f2] c = Ok c' /\
    tone_state c' = Playing /\ open_sessions (hw_log c') = 1.
Proof.
  intros Hwf.
  destruct (wf_start_tone f1 c Hwf) as (c1 & H1 & Hwf1 & _).
  destruct (wf_start_tone f2 c1 Hwf1) as (c2 & H2 & Hwf2 & Hp2).
  exists c2. simpl. rewrite H1. cbn [bind]. rewrite H2. cbn [bind].
  split; [reflexivity|].
  assert (Hst : tone_state c2 = Playing) by (unfold tone_state; now rewrite Hp2).
  split; [exact Hst|].
  destruct (wf_playing c2 Hwf2 Hst) as (_ & _ & _ & _ & _ & Ho & _).
  exact Ho.
Qed.

(** C3, as stated, fails: after [start_tone(440)], [stop_tone()],
    [start_tone(7000)] the table is a new array of 50 entries, not the one
    of 100 entries the first call built. *)
Lemma table_regenerated_after_stop :
  exists c1 c2 t1 t2,
    start_tone 440 init = Ok c1 /\
    (stop_tone c1 >>= start_tone 7000) = Ok c2 /\
    _sine_wave c1 = Some t1 /\ _sine_wave c2 = Some t2 /\
    arr_id t1 <> arr_id t2 /\
    length (arr_data t1) = 100%nat /\ length (arr_data t2) = 50%nat.
Proof.
  eexists. eexists. eexists. eexists.
  split; [apply start_tone_idle; reflexivity|].
  split.
  { erewrite stop_tone_held by reflexivity. simpl bind.
    apply start_tone_idle. reflexivity. }
  split; [reflexivity|]. split; [reflexivity|].
  split; [simpl; lia|].
  split; simpl arr_data; rewrite sine_table_length; reflexivity.
Qed.

(** C3, amended: [start_tone] materializes the table exactly when it finds
    no audio-output handle (the first use, and the first start after every
    [stop_tone] that ended playback), as a new array whose length follows
    from that call's frequency; a [start_tone] that finds a handle (a tone
    is playing) keeps the table, also for a different frequency, and
    [stop_tone] never changes it. *)
Theorem table_built_without_handle (f : Z) (c : Clue) :
  wf c ->
  (exists c',
     start_tone f c = Ok c' /\
     match _sample c with
     | Some _ => _sine_wave c' = _sine_wave c
     | None =>
         _sine_wave c' =
         Some {| arr_id := next_id c;
                 arr_data := sine_table (table_length f) |}
     end) /\
  (exists c', stop_tone c = Ok c' /\ _sine_wave c' = _sine_wave c).
Proof.
  intros Hwf. split.
  - destruct (_sample c) as [h|] eqn:Hs.
    + assert (Hpl : tone_state c = Playing).
      { unfold tone_state, is_playing. rewrite Hs.
        destruct Hwf as [Ha _]. rewrite Hs in Ha. destruct Ha as (-> & _).
        reflexivity. }
      destruct (wf_playing c Hwf Hpl) as (h' & wave & rs & Hs' & Hp & _ & Hw & Hrs).
      eexists. split; [apply (start_tone_held _ _ _ _ _ Hs' Hp Hw Hrs)|].
      reflexivity.
    + exists (started f c). split; [now apply start_tone_idle | reflexivity].
  - destruct (_sample c) as [h|] eqn:Hs.
    + destruct Hwf as [Ha _]. rewrite Hs in Ha. destruct Ha as (Hp & _).
      eexists. split; [apply (stop_tone_held _ _ Hs Hp) | reflexivity].
    + exists c. split; [now apply stop_tone_idle | reflexivity].
Qed.

Lemma table_built_without_handle_witness :
  exists c',
    start_tone 262 init = Ok c' /\
    _sine_wave c' =
    Some {| arr_id := 0; arr_data := sine_table (table_length 262) |}.
Proof.
  destruct (table_built_without_handle 262 init wf_init) as [H _].
  exact H.
Defined.

(** C4, as stated, fails: [start_tone(880)] on a player that plays 440 Hz
    changes the state, it rewrites the playback rate of the raw sample. *)
Lemma start_tone_while_playing_not_noop :
  exists c,
    start_tone 440 init = Ok c /\ tone_state c = Playing /\
    start_tone 880 c <> Ok c.
Proof.
  exists (started 440 init).
  split; [apply start_tone_idle; reflexivity|].
  split; [reflexivity|].
  erewrite start_tone_held by reflexivity.
  intros H.
  apply (f_equal (fun r => match r with
                           | Ok c => option_map sample_rate (_sine_wave_sample c)
                           | Raise _ => None
                           end)) in H.
  simpl in H. rewrite sine_table_length in H. discriminate H.
Qed.

(** C4, amended: for every frequency [f], [start_tone(f)] on a player that
    is Playing only sets the playback rate of the raw sample to
    len(table) * f: it makes no driver call (no stop, no second play, no
    second session), keeps the handle, the table and every other attribute,
    leaves the player Playing with exactly one audio-output session open,
    and a further [start_tone(f)] with the same [f] changes nothing. *)
Theorem start_tone_while_playing (f : Z) (c : Clue) :
  wf c -> tone_state c = Playing ->
  exists wave rs c',
    _sine_wave c = Some wave /\ _sine_wave_sample c = Some rs /\
    start_tone f c = Ok c' /\
    c' = set_sine_wave_sample
           (Some {| rs_buffer := rs_buffer rs;
                    sample_rate :=
                      (Z.of_nat (length (arr_data wave)) * f)%Z |}) c /\
    hw_log c' = hw_log c /\ _sample c' = _sample c /\
    _sine_wave c' = _sine_wave c /\ _samples c' = _samples c /\
    next_id c' = next_id c /\
    tone_state c' = Playing /\ open_sessions (hw_log c') = 1 /\
    start_tone f c' = Ok c'.
Proof.
  intros Hwf Hpl.
  destruct (wf_playing c Hwf Hpl) as (h & wave & rs & Hs & Hp & Ho & Hw & Hrs).
  exists wave, rs. eexists.
  split; [exact Hw|]. split; [exact Hrs|].
  split; [apply (start_tone_held _ _ _ _ _ Hs Hp Hw Hrs)|].
  split; [reflexivity|].
  repeat (split; [reflexivity|]).
  split; [exact Hpl|]. split; [exact Ho|].
  erewrite start_tone_held; [| exact Hs | exact Hp | exact Hw | reflexivity].
  reflexivity.
Qed.

Lemma start_tone_while_playing_witness :
  exists c',
    start_tone 294 (started 262 init) = Ok c' /\
    tone_state c' = Playing /\ open_sessions (hw_log c') = 1.
Proof.
  destruct (start_tone_while_playing 294 (started 262 init)
              (wf_started 262 init wf_init eq_refl) eq_refl)
    as (wave & rs & c' & _ & _ & H & _ & _ & _ & _ & _ & _ & Hp & Ho & _).
  exists c'. repeat split; assumption.
Defined.

Lemma cycles_release (fs : list Z) (c : Clue) :
  wf c -> _sample c = None ->
  exists c',
    run_calls (cycles fs) c = Ok c' /\ wf c' /\ _sample c' = None /\
    open_sessions (hw_log c') = 0.
Proof.
  revert c. induction fs as [|f fs IH]; intros c Hwf Hs.
  - exists c. simpl. destruct Hwf as [Ha Hb]. rewrite Hs in Ha.
    repeat split; auto. now rewrite Hs.
  - destruct (wf_start_tone f c Hwf) as (c1 & H1 & Hwf1 & _).
    destruct (wf_stop_tone c1 Hwf1) as (c2 & H2 & Hwf2 & Hs2 & _).
    destruct (IH c2 Hwf2 Hs2) as (c' & Hrun & Hrest).
    exists c'. split; [|exact Hrest].
    simpl. rewrite H1. simpl. rewrite H2. simpl. exact Hrun.
Qed.

(** C6: [stop_tone] on a Playing player stops playback and deinitializes
    the audio-output handle (the only driver calls it makes, on that
    handle), drops the handle and leaves the player Idle with no session
    open; on an Idle player it changes nothing and raises nothing; a second
    [stop_tone] changes nothing; and after any number of start/stop cycles
    no session is left open. *)
Theorem stop_tone_releases (c : Clue) :
  wf c ->
  exists c',
    stop_tone c = Ok c' /\
    tone_state c' = Idle /\ _sample c' = None /\
    open_sessions (hw_log c') = 0 /\
    (forall h, _sample c = Some h ->
       hw_log c' = PwmDeinit (pwm_id h) :: PwmStop (pwm_id h) :: hw_log c) /\
    (tone_state c = Idle -> c' = c) /\
    stop_tone c' = Ok c' /\
    (stop_tone c >>= stop_tone) = stop_tone c /\
    forall fs, exists c'',
      run_calls (cycles fs) c' = Ok c'' /\
      tone_state c'' = Idle /\ open_sessions (hw_log c'') = 0.
Proof.
  intros Hwf.
  assert (Hcyc : forall c', wf c' -> _sample c' = None ->
            forall fs, exists c'',
              run_calls (cycles fs) c' = Ok c'' /\
              tone_state c'' = Idle /\ open_sessions (hw_log c'') = 0).
  { intros c' Hwf' Hs' fs.
    destruct (cycles_release fs c' Hwf' Hs') as (c'' & Hr & Hw'' & Hs'' & Ho'').
    exists c''. repeat split; auto. now apply wf_idle. }
  destruct (wf_stop_tone c Hwf) as (c' & Hstop & Hwf' & Hs' & Ho').
  exists c'. split; [exact Hstop|].
  split; [now apply wf_idle|]. split; [exact Hs'|]. split; [exact Ho'|].
  split.
  { intros h Hs. destruct Hwf as [Ha _]. rewrite Hs in Ha.
    destruct Ha as (Hp & _).
    rewrite (stop_tone_held _ _ Hs Hp) in Hstop. injection Hstop as <-.
    reflexivity. }
  split.
  { intros Hidle. apply (wf_idle c Hwf) in Hidle.
    rewrite (stop_tone_idle _ Hidle) in Hstop. now injection Hstop. }
  split; [now apply stop_tone_idle|].
  split; [rewrite Hstop; simpl; now apply stop_tone_idle|].
  now apply Hcyc.
Qed.

Lemma stop_tone_releases_witness :
  exists c',
    stop_tone (started 262 init) = Ok c' /\
    tone_state c' = Idle /\ _sample c' = None /\
    open_sessions (hw_log c') = 0.
Proof.
  destruct (stop_tone_releases (started 262 init)
              (wf_started 262 init wf_init eq_refl))
    as (c' & H1 & H2 & H3 & H4 & _).
  exists c'. repeat split; assumption.
Defined.




(** ** The sound level *)

Lemma overwrite_full (n : nat) (x old : list Z) :
  length x = n -> length old = n -> overwrite (firstn n x) old = x.
Proof.
  intros Hx Hold. unfold overwrite. rewrite <- Hx, firstn_all, Hx, <- Hold.
  rewrite skipn_all. apply app_nil_r.
Qed.

Lemma sound_level_no_handle (x : list Z) (c : Clue) :
  _sample c = None -> length x = 160 ->
  sound_level x c =
  (level <- _normalized_rms x ;;
   Ok (level,
       captured_into {| arr_id := next_id c; arr_data := repeat 0%Z 160 |} x
         (snd (alloc c)))).
Proof.
  intros Hs Hx. unfold sound_level. rewrite Hs.
  unfold new_array. change (Py.array_H (repeat 0%Z 160))
    with (@Ok (list Z) (repeat 0%Z 160)).
  cbn [bind alloc set_samples _samples option_map arr_data Py.len Py.attr].
  rewrite repeat_length.
  unfold mic_record. cbn [arr_data arr_id].
  rewrite Nat2Z.id.
  rewrite !(overwrite_full 160 x (repeat 0%Z 160) Hx (repeat_length 0%Z 160)).
  reflexivity.
Qed.

Lemma sound_level_handle_buffer (x : list Z) (c : Clue)
    (h : PWMAudioOut) (buf : Array) :
  _sample c = Some h -> _samples c = Some buf ->
  length (arr_data buf) = 160 -> length x = 160 ->
  sound_level x c =
  (level <- _normalized_rms x ;; Ok (level, captured_into buf x c)).
Proof.
  intros Hs Hb Hlen Hx. unfold sound_level. rewrite Hs.
  cbn [bind]. rewrite Hb.
  cbn [option_map Py.len Py.attr bind].
  unfold mic_record. rewrite Nat2Z.id, Hlen.
  rewrite !(overwrite_full 160 x (arr_data buf) Hx Hlen).
  reflexivity.
Qed.

Lemma sound_level_handle_no_buffer (x : list Z) (c : Clue) (h : PWMAudioOut) :
  _sample c = Some h -> _samples c = None ->
  sound_level x c = Raise TypeError.
Proof.
  intros Hs Hb. unfold sound_level. rewrite Hs. cbn [bind]. now rewrite Hb.
Qed.

Lemma sum_bounds (xs : list Z) :
  Forall (fun v => 0 <= v < 65536)%Z xs ->
  (0 <= Py.sum xs <= 65535 * Z.of_nat (length xs))%Z.
Proof.
  induction 1 as [|x xs Hx _ IH]; [unfold Py.sum; simpl; lia|].
  rewrite sum_cons. simpl length. lia.
Qed.

(** C1: for every capture [x] of 160 unsigned 16-bit samples,
    [sound_level] returns sqrt((sum_i (x_i - m)^2) / 160), where [m] is the
    truncated mean int(sum_i x_i / 160), an integer quotient; the buffer
    holds [x] afterwards; and when the 160 values are all equal the result
    is 0. *)
Theorem sound_level_rms (x : list Z) (c : Clue) :
  length x = 160 ->
  Forall (fun v => 0 <= v < 65536)%Z x ->
  can_capture c ->
  let m := Py.int (IZR (Py.sum x) / 160) in
  let level :=
    sqrt (IZR (Py.sum (map (fun s => (s - m) * (s - m))%Z x)) / 160) in
  m = (Py.sum x / 160)%Z /\ (0 <= m < 65536)%Z /\
  (exists c',
     sound_level x c = Ok (level, c') /\
     option_map arr_data (_samples c') = Some x) /\
  (forall v, x = repeat v 160 -> level = 0%R).
Proof.
  intros Hlen Hrange Hcap m level.
  pose proof (sum_bounds x Hrange) as Hsum. rewrite Hlen in Hsum.
  assert (Hm : m = Z.quot (Py.sum x) 160)
    by (subst m; apply (int_truediv (Py.sum x) 160); lia).
  assert (Hq : Z.quot (Py.sum x) 160 = (Py.sum x / 160)%Z)
    by (apply Z.quot_div_nonneg; lia).
  assert (Hne : x <> []) by (intros ->; simpl in Hlen; discriminate Hlen).
  pose proof (normalized_rms_closed x Hne) as Hrms.
  rewrite Hlen in Hrms. cbv zeta in Hrms.
  change (Z.of_nat 160) with 160%Z in Hrms.
  rewrite <- Hm in Hrms. fold level in Hrms.
  split; [congruence|]. split.
  { rewrite Hm, Hq. split; [apply Z.div_pos; lia|].
    apply Z.div_lt_upper_bound; lia. }
  split.
  - destruct (_sample c) as [h|] eqn:Hs.
    + destruct Hcap as [Hnone | (buf & Hb & Hbl)]; [congruence|].
      exists (captured_into buf x c).
      rewrite (sound_level_handle_buffer x c h buf Hs Hb Hbl Hlen), Hrms.
      split; reflexivity.
    + eexists. rewrite (sound_level_no_handle x c Hs Hlen), Hrms.
      split; reflexivity.
  - intros v Hv. subst level.
    assert (Hmv : m = v).
    { rewrite Hm, Hv, sum_repeat. change (Z.of_nat 160) with 160%Z.
      rewrite Z.mul_comm. apply Z.quot_mul. lia. }
    rewrite Hmv, Hv, sum_squares_repeat.
    unfold Rdiv. rewrite Rmult_0_l. apply sqrt_0.
Qed.

Lemma sound_level_rms_witness :
  exists c', sound_level (repeat 7%Z 160) init = Ok (0%R, c').
Proof.
  assert (Hr : Forall (fun v => 0 <= v < 65536)%Z (repeat 7%Z 160))
    by (apply Forall_forall; intros v Hv; apply repeat_spec in Hv; lia).
  destruct (sound_level_rms (repeat 7%Z 160) init
              (repeat_length 7%Z 160) Hr (or_introl eq_refl))
    as (_ & _ & (c' & Hc & _) & Hz).
  exists c'. rewrite <- (Hz 7%Z eq_refl). exact Hc.
Defined.

(** C8 fails on the code: two [sound_level] calls on a new [Clue] capture
    into two different arrays, the second call allocates again (the guard
    tests [_sample], which is [None] whenever no tone plays). *)
Theorem sound_level_twice_two_buffers :
  exists l1 c1 l2 c2,
    sound_level (repeat 0%Z 160) init = Ok (l1, c1) /\
    sound_level (repeat 0%Z 160) c1 = Ok (l2, c2) /\
    option_map arr_id (_samples c1) = Some 0 /\
    option_map arr_id (_samples c2) = Some 1 /\
    next_id c2 = 2.
Proof.
  assert (Hne : repeat 0%Z 160 <> []) by discriminate.
  pose proof (normalized_rms_closed _ Hne) as Hrms. cbv zeta in Hrms.
  do 4 eexists.
  split.
  { rewrite sound_level_no_handle by reflexivity. rewrite Hrms. reflexivity. }
  split.
  { rewrite sound_level_no_handle by reflexivity. rewrite Hrms. reflexivity. }
  repeat split.
Qed.

(** C9: after [start_tone(f)] on a new [Clue], for any frequency [f] and
    with no earlier [sound_level], [sound_level] raises instead of
    returning a level: the handle [_sample] is set, so no buffer is
    allocated, and [len] is applied to the [None] in [_samples]. *)
Theorem sound_level_fails_while_tone_plays (f : Z) (x : list Z) :
  (start_tone f init >>= sound_level x) = Raise TypeError /\
  exists c,
    start_tone f init = Ok c /\ tone_state c = Playing /\
    _sample c <> None /\ _samples c = None.
Proof.
  rewrite start_tone_idle by reflexivity. split.
  - simpl bind. now apply sound_level_handle_no_buffer
      with (h := {| pwm_id := 1; playing := true |}).
  - eexists. split; [reflexivity|]. repeat split. discriminate.
Qed.

(** ** Buttons *)

Lemma land_pow2_eqb (k p : Z) :
  (0 <= k)%Z -> (Z.land (2 ^ k) p =? 0)%Z = negb (Z.testbit p k).
Proof.
  intros Hk. destruct (Z.testbit p k) eqn:Hb; simpl.
  - apply Z.eqb_neq. intros H0.
    assert (Ht : Z.testbit (Z.land (2 ^ k) p) k = true)
      by (rewrite Z.land_spec, Z.pow2_bits_true, Hb by lia; reflexivity).
    rewrite H0, Z.bits_0 in Ht. discriminate.
  - apply Z.eqb_eq. apply Z.bits_inj'. intros n Hn.
    rewrite Z.land_spec, Z.bits_0.
    destruct (Z.eq_dec k n) as [<-|Hne].
    + now rewrite Hb, andb_false_r.
    + rewrite Z.pow2_bits_false by lia. reflexivity.
Qed.

Lemma were_pressed_cases (pressed : Z) :
  were_pressed pressed =
  match Z.testbit pressed 0, Z.testbit pressed 1 with
  | true, true => ["A"%string; "B"%string]
  | true, false => ["A"%string]
  | false, true => ["B"%string]
  | false, false => []
  end.
Proof.
  unfold were_pressed, button_masks. cbn [fold_left fst snd].
  assert (H0 : (Z.land 1 pressed =? 0)%Z = negb (Z.testbit pressed 0))
    by exact (land_pow2_eqb 0 pressed (Z.le_refl 0)).
  assert (H1 : (Z.land 2 pressed =? 0)%Z = negb (Z.testbit pressed 1))
    by exact (land_pow2_eqb 1 pressed Z.le_0_1).
  rewrite H0, H1.
  destruct (Z.testbit pressed 0), (Z.testbit pressed 1); reflexivity.
Qed.

(** X1: the set [were_pressed] returns contains ["A"] exactly when bit 0 of
    the mask is set and ["B"] exactly when bit 1 is set, nothing else and
    nothing twice; all other bits of the mask are ignored. *)
Theorem were_pressed_bits (pressed : Z) :
  (In "A"%string (were_pressed pressed) <-> Z.testbit pressed 0 = true) /\
  (In "B"%string (were_pressed pressed) <-> Z.testbit pressed 1 = true) /\
  (forall b, In b (were_pressed pressed) ->
             b = "A"%string \/ b = "B"%string) /\
  NoDup (were_pressed pressed) /\
  were_pressed pressed = were_pressed (Z.land pressed 3) /\
  (were_pressed pressed = [] <-> Z.land pressed 3 = 0%Z).
Proof.
  assert (H3 : forall k, (k = 0 \/ k = 1)%Z ->
             Z.testbit (Z.land pressed 3) k = Z.testbit pressed k).
  { intros k [-> | ->]; rewrite Z.land_spec; simpl; apply andb_true_r. }
  assert (Hz : Z.land pressed 3 = 0%Z <->
               Z.testbit pressed 0 = false /\ Z.testbit pressed 1 = false).
  { split.
    - intros H0. rewrite <- (H3 0%Z), <- (H3 1%Z), H0 by auto.
      now rewrite !Z.bits_0.
    - intros [Ha Hb]. apply Z.bits_inj'. intros n Hn.
      rewrite Z.land_spec, Z.bits_0.
      destruct (Z.eq_dec n 0) as [->|]; [now rewrite Ha|].
      destruct (Z.eq_dec n 1) as [->|]; [now rewrite Hb|].
      change 3%Z with (Z.ones 2). rewrite Z.ones_spec_high by lia.
      apply andb_false_r. }
  rewrite (were_pressed_cases (Z.land pressed 3)), !H3 by auto.
  rewrite Hz, were_pressed_cases.
  destruct (Z.testbit pressed 0), (Z.testbit pressed 1); simpl;
    (split; [|split; [|split; [|split; [|split]]]]);
    try reflexivity;
    try (repeat constructor; simpl; intuition discriminate);
    intuition (subst; auto; try discriminate; try congruence).
Qed.

(** ** The sensor engines *)

Lemma sensor_reads_flags (rs : list SensorRead) (s : APDS9960) :
  let s' := fold_left (fun s r => sensor_read r s) rs s in
  enable_proximity s' = enable_proximity s || existsb is_proximity rs /\
  enable_color s' = enable_color s || existsb is_color rs /\
  enable_gesture s' = enable_gesture s || existsb is_gesture rs.
Proof.
  revert s. induction rs as [|r rs IH]; intros s; simpl.
  - now rewrite !orb_false_r.
  - destruct (IH (sensor_read r s)) as (Hp & Hc & Hg).
    rewrite Hp, Hc, Hg.
    destruct r; simpl; rewrite ?orb_true_r, ?orb_false_l; auto.
Qed.

(** X2: after any sequence of reads through [proximity], [color] and
    [gesture], an engine of the sensor is enabled exactly when it was
    enabled before or its property was read; no read ever disables an
    engine. *)
Theorem sensor_engines_only_switch_on (rs : list SensorRead) (s : APDS9960) :
  let s' := fold_left (fun s r => sensor_read r s) rs s in
  (enable_proximity s' = enable_proximity s || existsb is_proximity rs /\
   enable_color s' = enable_color s || existsb is_color rs /\
   enable_gesture s' = enable_gesture s || existsb is_gesture rs) /\
  (enable_proximity s = true -> enable_proximity s' = true) /\
  (enable_color s = true -> enable_color s' = true) /\
  (enable_gesture s = true -> enable_gesture s' = true).
Proof.
  intros s'. destruct (sensor_reads_flags rs s) as (Hp & Hc & Hg).
  fold s' in Hp, Hc, Hg. split; [auto|].
  rewrite Hp, Hc, Hg. repeat split; intros ->; reflexivity.
Qed.

(** ** The text display helper *)

Lemma getitem_in_range {A : Type} (xs : list A) (i : nat) (d : A) :
  (i < length xs)%nat -> Ui.getitem xs (Z.of_nat i) = Ui.Ok (nth i xs d).
Proof.
  intros Hi. unfold Ui.getitem.
  destruct (Z.of_nat i <? 0)%Z eqn:Hneg; [apply Z.ltb_lt in Hneg; lia|].
  destruct (0 <=? Z.of_nat i)%Z eqn:H0; [|apply Z.leb_gt in H0; lia].
  destruct (Z.of_nat i <? Z.of_nat (length xs))%Z eqn:H1;
    [|apply Z.ltb_ge in H1; lia].
  simpl. rewrite Nat2Z.id.
  now rewrite (nth_error_nth' xs d Hi).
Qed.

Lemma getitem_negative {A : Type} (xs : list A) (i : Z) (d : A) :
  (- Z.of_nat (length xs) <= i < 0)%Z ->
  Ui.getitem xs i = Ui.Ok (nth (Z.to_nat (Z.of_nat (length xs) + i)) xs d).
Proof.
  intros Hi. unfold Ui.getitem.
  destruct (i <? 0)%Z eqn:Hneg; [|apply Z.ltb_ge in Hneg; lia].
  set (n := Z.of_nat (length xs)) in *.
  destruct (0 <=? i + n)%Z eqn:H0; [|apply Z.leb_gt in H0; lia].
  destruct (i + n <? n)%Z eqn:H1; [|apply Z.ltb_ge in H1; lia].
  simpl. replace (n + i)%Z with (i + n)%Z by lia.
  rewrite (nth_error_nth' xs d); [reflexivity|]. subst n. lia.
Qed.

Lemma getitem_out_of_range {A : Type} (xs : list A) (i : Z) :
  (Z.of_nat (length xs) <= i \/ i < - Z.of_nat (length xs))%Z ->
  Ui.getitem xs i = Ui.Raise Ui.IndexError.
Proof.
  intros Hi. unfold Ui.getitem.
  set (n := Z.of_nat (length xs)) in *.
  destruct (i <? 0)%Z eqn:Hneg.
  - apply Z.ltb_lt in Hneg.
    destruct (0 <=? i + n)%Z eqn:H0; [apply Z.leb_le in H0; lia|].
    reflexivity.
  - apply Z.ltb_ge in Hneg.
    destruct (i <? n)%Z eqn:H1; [apply Z.ltb_lt in H1; lia|].
    now rewrite andb_false_r.
Qed.

Lemma add_lines_app (cs : list Ui.Color) (a b : list Z)
    (d : Ui.DisplaySensorData) :
  Ui.add_lines cs (a ++ b) d =
  Ui.bind (Ui.add_lines cs a d) (Ui.add_lines cs b).
Proof.
  revert d. induction a as [|num a IH]; intros d; [reflexivity|].
  simpl. destruct (Ui.getitem cs num) as [color|e]; [|reflexivity].
  simpl. destruct (Ui.add_text_line color d) as [r|e]; [|reflexivity].
  simpl. apply IH.
Qed.

Lemma add_text_line_room (color : Ui.Color) (d : Ui.DisplaySensorData) :
  (length (Ui.sensor_group d) < Ui.max_size d)%nat ->
  Ui.add_text_line color d =
  Ui.Ok (length (Ui.labels d),
         {| Ui.labels :=
              Ui.labels d ++ [line_label (Ui._font d) color (Ui._y d)];
            Ui.sensor_group := Ui.sensor_group d ++ [length (Ui.labels d)];
            Ui.group_scale := Ui.group_scale d;
            Ui.max_size := Ui.max_size d;
            Ui._lines := Ui._lines d;
            Ui._y := (Ui._y d + 13)%Z;
            Ui._font := Ui._font d;
            Ui.shown := Ui.shown d |}).
Proof.
  intros Hroom. unfold Ui.add_text_line, Ui.new_label, Ui.group_append.
  cbn [Ui.set_y Ui.sensor_group Ui.max_size Ui.lbl_y].
  apply Nat.ltb_lt in Hroom. rewrite Hroom. reflexivity.
Qed.

Lemma add_text_line_full (color : Ui.Color) (d : Ui.DisplaySensorData) :
  (Ui.max_size d <= length (Ui.sensor_group d))%nat ->
  Ui.add_text_line color d = Ui.Raise Ui.RuntimeError.
Proof.
  intros Hfull. unfold Ui.add_text_line, Ui.new_label, Ui.group_append.
  cbn [Ui.set_y Ui.sensor_group Ui.max_size Ui.lbl_y].
  apply Nat.ltb_ge in Hfull. rewrite Hfull. reflexivity.
Qed.

Lemma add_lines_ok (cs : list Ui.Color) (m : nat) :
  forall (k : nat) (d : Ui.DisplaySensorData),
    length (Ui.labels d) = S k -> length (Ui.sensor_group d) = S k ->
    (k + m <= length cs)%nat -> (k + m <= 19)%nat ->
    Ui.max_size d = 20 -> Ui._y d = (28 + 13 * Z.of_nat k)%Z ->
    Ui.add_lines cs (map Z.of_nat (seq k m)) d =
    Ui.Ok {| Ui.labels :=
               Ui.labels d ++ map (init_line (Ui._font d) cs) (seq k m);
             Ui.sensor_group := Ui.sensor_group d ++ seq (S k) m;
             Ui.group_scale := Ui.group_scale d;
             Ui.max_size := Ui.max_size d;
             Ui._lines := Ui._lines d ++ seq (S k) m;
             Ui._y := (28 + 13 * Z.of_nat (k + m))%Z;
             Ui._font := Ui._font d;
             Ui.shown := Ui.shown d |}.
Proof.
  induction m as [|m IH]; intros k d Hl Hg Hcs H19 Hmax Hy.
  - cbn [seq map Ui.add_lines]. rewrite !app_nil_r, Nat.add_0_r, <- Hy.
    now destruct d.
  - simpl seq. simpl map. cbn [Ui.add_lines].
    rewrite (getitem_in_range cs k (Ui.Packed 0)) by lia. cbn [Ui.bind].
    rewrite add_text_line_room by lia. cbn [Ui.bind fst snd].
    unfold Ui.lines_append.
    cbn [Ui.labels Ui.sensor_group Ui.group_scale Ui.max_size Ui._lines
         Ui._y Ui._font Ui.shown].
    rewrite (IH (S k));
      cbn [Ui.labels Ui.sensor_group Ui.group_scale Ui.max_size Ui._lines
           Ui._y Ui._font Ui.shown];
      rewrite ?length_app; cbn [length]; try lia.
    rewrite Hl, <- !app_assoc. cbn [app].
    replace (S k + m)%nat with (k + S m)%nat by lia.
    unfold init_line at 2. rewrite <- Hy. reflexivity.
Qed.

Lemma display_init_ok (title : String.string) (title_color : Ui.Color)
    (title_scale sensor_scale : Z) (font : option Ui.Font) (num_sensors : Z)
    (colors : option (list Ui.Color)) :
  (String.length title <= 60)%nat ->
  (num_sensors <= Z.of_nat (length (Ui.effective_colors colors)))%Z ->
  (num_sensors < 20)%Z ->
  Ui.__init__ title title_color title_scale sensor_scale font num_sensors
    colors =
  Ui.Ok
    {| Ui.labels :=
         {| Ui.lbl_font := ui_font font; Ui.lbl_text := title;
            Ui.lbl_max_glyphs := 60; Ui.lbl_color := title_color;
            Ui.lbl_scale := title_scale; Ui.lbl_x := 0; Ui.lbl_y := 8 |}
         :: map (init_line (ui_font font) (Ui.effective_colors colors))
                (seq 0 (Z.to_nat num_sensors));
       Ui.sensor_group := seq 0 (S (Z.to_nat num_sensors));
       Ui.group_scale := sensor_scale;
       Ui.max_size := 20;
       Ui._lines := seq 1 (Z.to_nat num_sensors);
       Ui._y := (28 + 13 * Z.of_nat (Z.to_nat num_sensors))%Z;
       Ui._font := ui_font font;
       Ui.shown := Ui.Terminal |}.
Proof.
  intros Htitle Hcs H20. unfold Ui.__init__. fold (ui_font font).
  destruct (60 <? Z.of_nat (String.length title))%Z eqn:Hlong;
    [apply Z.ltb_lt in Hlong; lia|].
  unfold Ui.group_append at 1.
  cbn [Ui.sensor_group Ui.max_size length Nat.ltb Nat.leb Ui.bind
       Ui.labels Ui.group_scale Ui._lines Ui._y Ui._font Ui.shown
       Ui.lbl_y app].
  rewrite (add_lines_ok (Ui.effective_colors colors)
             (Z.to_nat num_sensors) 0);
    cbn [Ui.labels Ui.sensor_group Ui.group_scale Ui.max_size Ui._lines
         Ui._y Ui._font Ui.shown length app]; try reflexivity; try lia.
Qed.

(** X3: a title of at most 60 characters with fewer than 20 lines, none
    beyond the palette (the given colors, or the ten default ones when
    [colors] is [None] or empty), builds the display: the title label at
    y = 8, then line [k] at y = 28 + 13 * k in color [colors[k]], all in the
    group in that order, and the next free height is 28 + 13 * n. *)
Theorem display_init_layout (title : String.string) (title_color : Ui.Color)
    (title_scale sensor_scale : Z) (font : option Ui.Font) (num_sensors : Z)
    (colors : option (list Ui.Color)) :
  (String.length title <= 60)%nat ->
  (num_sensors <= Z.of_nat (length (Ui.effective_colors colors)))%Z ->
  (num_sensors < 20)%Z ->
  let n := Z.to_nat num_sensors in
  let cs := Ui.effective_colors colors in
  exists d,
    display_sensor_data title title_color title_scale num_sensors
      sensor_scale font colors = Ui.Ok d /\
    length (Ui.labels d) = S n /\
    Ui.sensor_group d = seq 0 (S n) /\
    Ui._lines d = seq 1 n /\
    Ui._y d = (28 + 13 * Z.of_nat n)%Z /\
    (exists t, nth_error (Ui.labels d) 0 = Some t /\
               Ui.lbl_text t = title /\ Ui.lbl_y t = 8%Z /\
               Ui.lbl_color t = title_color /\ Ui.lbl_max_glyphs t = 60%Z) /\
    forall k, (k < n)%nat ->
      exists l, nth_error (Ui.labels d) (S k) = Some l /\
                Ui.lbl_y l = (28 + 13 * Z.of_nat k)%Z /\
                Ui.lbl_x l = 0%Z /\
                Ui.lbl_color l = nth k cs (Ui.Packed 0) /\
                Ui.lbl_text l = ""%string /\ Ui.lbl_font l = ui_font font.
Proof.
  intros Htitle Hcs H20 n cs. eexists. unfold display_sensor_data.
  rewrite display_init_ok by assumption. fold n cs.
  split; [reflexivity|].
  cbn [Ui.labels Ui.sensor_group Ui._lines Ui._y].
  split; [cbn [length]; now rewrite length_map, length_seq|].
  split; [reflexivity|]. split; [reflexivity|]. split; [reflexivity|].
  split; [eexists; split; [reflexivity|]; repeat split|].
  intros k Hk. exists (init_line (ui_font font) cs k).
  split; [|repeat split].
  cbn [nth_error]. rewrite nth_error_map, nth_error_seq.
  apply Nat.ltb_lt in Hk. now rewrite Hk.
Qed.

Lemma display_init_layout_witness :
  exists d,
    display_sensor_data "Sensor Lab!"%string (Ui.Packed 16777215) 1 6 2 None
      (Some [Ui.RGB 0 255 255; Ui.RGB 255 0 0; Ui.RGB 255 0 0; Ui.Packed 0;
             Ui.RGB 255 255 0; Ui.RGB 0 255 0]) = Ui.Ok d /\
    Ui._y d = (28 + 13 * 6)%Z.
Proof.
  destruct (display_init_layout "Sensor Lab!"%string (Ui.Packed 16777215)
              1 2 None 6
              (Some [Ui.RGB 0 255 255; Ui.RGB 255 0 0; Ui.RGB 255 0 0;
                     Ui.Packed 0; Ui.RGB 255 255 0; Ui.RGB 0 255 0]))
    as (d & Hd & _ & _ & _ & Hy & _);
    [simpl; lia | simpl; lia | lia |].
  exists d. split; [exact Hd | exact Hy].
Defined.

(** X4: on a display built with [n] lines, indexing with [k] in [0, n)
    gives line [k], the object that sits at position [k + 1] of the
    displayed group (so a change to it shows on the screen) and that was
    placed at y = 28 + 13 * k; [k - n] names the same line from the end;
    indices from [n] up and below [-n] raise IndexError. *)
Theorem display_getitem (title : String.string) (title_color : Ui.Color)
    (title_scale sensor_scale : Z) (font : option Ui.Font) (num_sensors : Z)
    (colors : option (list Ui.Color)) :
  (String.length title <= 60)%nat ->
  (num_sensors <= Z.of_nat (length (Ui.effective_colors colors)))%Z ->
  (num_sensors < 20)%Z ->
  let n := Z.of_nat (Z.to_nat num_sensors) in
  exists d,
    Ui.__init__ title title_color title_scale sensor_scale font num_sensors
      colors = Ui.Ok d /\
    (forall k, (0 <= k < n)%Z ->
       exists obj l,
         Ui.__getitem__ k d = Ui.Ok obj /\
         Ui.__getitem__ (k - n) d = Ui.Ok obj /\
         nth_error (Ui.on_screen (Ui.show d)) (S (Z.to_nat k)) = Some obj /\
         nth_error (Ui.labels d) obj = Some l /\
         Ui.lbl_y l = (28 + 13 * k)%Z) /\
    (forall i, (n <= i \/ i < - n)%Z ->
       Ui.__getitem__ i d = Ui.Raise Ui.IndexError).
Proof.
  intros Htitle Hcs H20 n. eexists.
  rewrite display_init_ok by assumption. split; [reflexivity|].
  unfold Ui.__getitem__, Ui.on_screen, Ui.show.
  cbn [Ui._lines Ui.labels Ui.sensor_group Ui.shown Ui.set_shown].
  set (m := Z.to_nat num_sensors) in *.
  split.
  - intros k Hk. exists (S (Z.to_nat k)).
    exists (init_line (ui_font font) (Ui.effective_colors colors) (Z.to_nat k)).
    assert (Hkm : (Z.to_nat k < m)%nat) by lia.
    split.
    { rewrite <- (Z2Nat.id k) at 1 by lia.
      rewrite (getitem_in_range (seq 1 m) (Z.to_nat k) 0%nat)
        by (rewrite length_seq; lia).
      now rewrite seq_nth by lia. }
    split.
    { rewrite (getitem_negative (seq 1 m) (k - n) 0%nat)
        by (rewrite length_seq; lia).
      rewrite length_seq. fold n.
      replace (n + (k - n))%Z with k by lia.
      now rewrite seq_nth by lia. }
    split.
    { rewrite nth_error_seq.
      assert (Hlt : (S (Z.to_nat k) <? S m)%nat = true)
        by (apply Nat.ltb_lt; lia).
      now rewrite Hlt. }
    split.
    { cbn [nth_error]. rewrite nth_error_map, nth_error_seq.
      apply Nat.ltb_lt in Hkm. now rewrite Hkm. }
    unfold init_line, line_label. cbn [Ui.lbl_y]. lia.
  - intros i Hi. apply getitem_out_of_range. rewrite length_seq. fold n.
    exact Hi.
Qed.

Lemma display_getitem_witness :
  exists d,
    Ui.__init__ "Clue Sensor Data"%string (Ui.Packed 16777215) 1 1 None 1
      None = Ui.Ok d /\
    Ui.__getitem__ 1 d = Ui.Raise Ui.IndexError.
Proof.
  destruct (display_getitem "Clue Sensor Data"%string (Ui.Packed 16777215)
              1 1 None 1 None) as (d & Hd & _ & Hout);
    [simpl; lia | simpl; lia | lia |].
  exists d. split; [exact Hd|]. apply Hout. simpl. lia.
Defined.

(** X6: asking for more lines than the palette has colors (with a palette
    of fewer than 20, such as the default ten) raises IndexError: the loop
    runs out of colors after building the lines it had colors for. *)
Theorem display_init_too_few_colors (title : String.string)
    (title_color : Ui.Color) (title_scale sensor_scale : Z)
    (font : option Ui.Font) (num_sensors : Z)
    (colors : option (list Ui.Color)) :
  (String.length title <= 60)%nat ->
  (Z.of_nat (length (Ui.effective_colors colors)) < num_sensors)%Z ->
  (length (Ui.effective_colors colors) < 20)%nat ->
  Ui.__init__ title title_color title_scale sensor_scale font num_sensors
    colors = Ui.Raise Ui.IndexError.
Proof.
  intros Htitle Hfew Hpal. unfold Ui.__init__.
  destruct (60 <? Z.of_nat (String.length title))%Z eqn:Hlong;
    [apply Z.ltb_lt in Hlong; lia|].
  unfold Ui.group_append at 1.
  cbn [Ui.sensor_group Ui.max_size length Nat.ltb Nat.leb Ui.bind
       Ui.labels Ui.group_scale Ui._lines Ui._y Ui._font Ui.shown
       Ui.lbl_y app].
  set (cs := Ui.effective_colors colors) in *.
  set (c := length cs) in *.
  replace (Z.to_nat num_sensors)
    with (c + S (Z.to_nat num_sensors - S c))%nat by lia.
  rewrite seq_app, map_app, add_lines_app.
  rewrite (add_lines_ok cs c 0);
    cbn [Ui.labels Ui.sensor_group Ui.group_scale Ui.max_size Ui._lines
         Ui._y Ui._font Ui.shown length app]; try reflexivity; try lia.
  cbn [Ui.bind seq map Ui.add_lines Nat.add].
  rewrite getitem_out_of_range by (fold c; lia). reflexivity.
Qed.

Lemma display_init_too_few_colors_witness :
  Ui.__init__ "Clue Sensor Data"%string (Ui.Packed 16777215) 1 1 None 11
    None = Ui.Raise Ui.IndexError.
Proof.
  apply display_init_too_few_colors; simpl; lia.
Defined.

(** X7: a line added with [add_text_line] after construction (while the
    group has room) is a new label at the next free height, 13 below the
    previous one, and is appended to the displayed group, but it is not
    entered in the list [__getitem__] reads: every index gives what it gave
    before. *)
Theorem add_text_line_not_indexed (color : Ui.Color)
    (d : Ui.DisplaySensorData) :
  (length (Ui.sensor_group d) < Ui.max_size d)%nat ->
  exists obj d',
    Ui.add_text_line color d = Ui.Ok (obj, d') /\
    obj = length (Ui.labels d) /\
    nth_error (Ui.labels d') obj =
      Some (line_label (Ui._font d) color (Ui._y d)) /\
    (forall o, o < obj -> nth_error (Ui.labels d') o = nth_error (Ui.labels d) o) /\
    Ui.sensor_group d' = Ui.sensor_group d ++ [obj] /\
    Ui._y d' = (Ui._y d + 13)%Z /\
    Ui._lines d' = Ui._lines d /\
    forall i, Ui.__getitem__ i d' = Ui.__getitem__ i d.
Proof.
  intros Hroom. do 2 eexists.
  split; [apply add_text_line_room; exact Hroom|].
  cbn [Ui.labels Ui.sensor_group Ui._y Ui._lines].
  split; [reflexivity|].
  split; [now rewrite nth_error_app2, Nat.sub_diag by lia|].
  split; [intros o Ho; now rewrite nth_error_app1 by lia|].
  repeat split.
Qed.

Lemma add_text_line_not_indexed_witness :
  exists obj d',
    Ui.add_text_line (Ui.RGB 0 255 0)
      {| Ui.labels := []; Ui.sensor_group := []; Ui.group_scale := 1;
         Ui.max_size := 20; Ui._lines := []; Ui._y := 28;
         Ui._font := Ui.TerminalFont; Ui.shown := Ui.Terminal |} =
      Ui.Ok (obj, d') /\ Ui._lines d' = [].
Proof.
  destruct (add_text_line_not_indexed (Ui.RGB 0 255 0)
              {| Ui.labels := []; Ui.sensor_group := []; Ui.group_scale := 1;
                 Ui.max_size := 20; Ui._lines := []; Ui._y := 28;
                 Ui._font := Ui.TerminalFont; Ui.shown := Ui.Terminal |})
    as (obj & d' & H & _ & _ & _ & _ & _ & Hl & _); [simpl; lia|].
  exists obj, d'. split; [exact H | exact Hl].
Defined.

(** ** More on the sound level *)

Section SoundLevel.

Open Scope R_scope.

Lemma normalized_rms_rms (values : list Z) :
  values <> [] -> _normalized_rms values = Ok (rms values).
Proof. intros Hne. exact (normalized_rms_closed values Hne). Qed.

Lemma rms_nonneg (values : list Z) : 0 <= rms values.
Proof. apply sqrt_pos. Qed.

Lemma mean_value_range (values : list Z) :
  values <> [] -> Forall (fun v => 0 <= v < 65536)%Z values ->
  (0 <= mean_value values < 65536)%Z /\
  mean_value values = (Py.sum values / Z.of_nat (length values))%Z.
Proof.
  intros Hne Hr. pose proof (sum_bounds values Hr) as Hs.
  assert (Hn : (0 < Z.of_nat (length values))%Z)
    by (destruct values; [congruence | simpl; lia]).
  unfold mean_value. rewrite Z.quot_div_nonneg by lia.
  split; [|reflexivity]. split; [apply Z.div_pos; lia|].
  apply Z.div_lt_upper_bound; lia.
Qed.

Lemma squares_bound (m : Z) (xs : list Z) :
  (0 <= m < 65536)%Z -> Forall (fun v => 0 <= v < 65536)%Z xs ->
  (Py.sum (map (fun s => (s - m) * (s - m))%Z xs)
   <= 65535 * 65535 * Z.of_nat (length xs))%Z.
Proof.
  intros Hm. induction 1 as [|x xs Hx _ IH]; [unfold Py.sum; simpl; lia|].
  simpl map. rewrite sum_cons. simpl length.
  assert ((x - m) * (x - m) <= 65535 * 65535)%Z by nia. lia.
Qed.

Lemma squares_zero (m : Z) (xs : list Z) :
  Py.sum (map (fun s => (s - m) * (s - m))%Z xs) = 0%Z -> Forall (eq m) xs.
Proof.
  induction xs as [|x xs IH]; [constructor|].
  simpl map. rewrite sum_cons. intros H0.
  pose proof (sum_squares_nonneg m xs) as Hs.
  pose proof (Z.square_nonneg (x - m)) as Hx.
  constructor; [nia | apply IH; lia].
Qed.

Lemma rms_bound (values : list Z) :
  values <> [] -> Forall (fun v => 0 <= v < 65536)%Z values ->
  rms values <= 65535.
Proof.
  intros Hne Hr. destruct (mean_value_range values Hne Hr) as [Hm _].
  pose proof (squares_bound (mean_value values) values Hm Hr) as Hb.
  pose proof (sum_squares_nonneg (mean_value values) values) as H0.
  fold (squared_deviations values) in Hb, H0.
  assert (Hn : (0 < Z.of_nat (length values))%Z)
    by (destruct values; [congruence | simpl; lia]).
  apply IZR_le in Hb, H0. apply IZR_lt in Hn.
  rewrite !mult_IZR in Hb.
  unfold rms. rewrite <- (sqrt_square 65535) by lra.
  apply sqrt_le_1_alt.
  apply Rmult_le_reg_r with (IZR (Z.of_nat (length values))); [exact Hn|].
  unfold Rdiv. rewrite Rmult_assoc, Rinv_l by lra. lra.
Qed.

Lemma rms_zero_iff (values : list Z) :
  values <> [] ->
  (rms values = 0 <-> exists v, values = repeat v (length values)).
Proof.
  intros Hne.
  assert (Hn : (0 < Z.of_nat (length values))%Z)
    by (destruct values; [congruence | simpl; lia]).
  pose proof (sum_squares_nonneg (mean_value values) values) as H0.
  fold (squared_deviations values) in H0.
  split.
  - intros Hz. exists (mean_value values). apply Forall_eq_repeat.
    apply squares_zero. fold (squared_deviations values).
    unfold rms in Hz. apply IZR_le in H0. pose proof (IZR_lt _ _ Hn) as HnR.
    apply sqrt_eq_0 in Hz.
    + apply eq_IZR.
      apply (f_equal (fun r => r * IZR (Z.of_nat (length values)))) in Hz.
      unfold Rdiv in Hz. rewrite Rmult_assoc, Rinv_l in Hz by lra. lra.
    + apply Rmult_le_pos; [lra | left; now apply Rinv_0_lt_compat].
  - intros [v Hv]. unfold rms, squared_deviations.
    assert (Hm : mean_value values = v).
    { unfold mean_value. rewrite Hv at 1. rewrite sum_repeat.
      rewrite Z.mul_comm. apply Z.quot_mul. lia. }
    rewrite Hm. rewrite Hv at 1. rewrite sum_squares_repeat.
    unfold Rdiv. rewrite Rmult_0_l. apply sqrt_0.
Qed.

(** What a successful [sound_level] leaves behind. *)
Lemma sound_level_ok (x : list Z) (c : Clue) :
  length x = 160%nat -> can_capture c ->
  exists c',
    sound_level x c = Ok (rms x, c') /\
    _sample c' = _sample c /\ _sine_wave c' = _sine_wave c /\
    _sine_wave_sample c' = _sine_wave_sample c /\
    hw_log c' = MicRecord 160 :: hw_log c /\
    option_map arr_data (_samples c') = Some x.
Proof.
  intros Hlen Hcap.
  assert (Hne : x <> []) by (intros ->; simpl in Hlen; discriminate Hlen).
  destruct (_sample c) as [h|] eqn:Hs.
  - destruct Hcap as [Hnone | (buf & Hb & Hbl)]; [congruence|].
    exists (captured_into buf x c).
    rewrite (sound_level_handle_buffer x c h buf Hs Hb Hbl Hlen).
    rewrite normalized_rms_rms by assumption. cbn. rewrite Hs. auto 6.
  - eexists. rewrite (sound_level_no_handle x c Hs Hlen).
    rewrite normalized_rms_rms by assumption. cbn. rewrite Hs. auto 6.
Qed.

End SoundLevel.

(** X8: for a capture of 160 unsigned 16-bit samples, [sound_level]
    returns a level between 0 and 65535, and the level is 0 exactly when
    all 160 samples are equal. *)
Theorem sound_level_range (x : list Z) (c : Clue) :
  length x = 160 ->
  Forall (fun v => 0 <= v < 65536)%Z x ->
  can_capture c ->
  exists level c',
    sound_level x c = Ok (level, c') /\
    (0 <= level <= 65535)%R /\
    (level = 0%R <-> exists v, x = repeat v 160).
Proof.
  intros Hlen Hr Hcap.
  assert (Hne : x <> []) by (intros ->; simpl in Hlen; discriminate Hlen).
  destruct (sound_level_ok x c Hlen Hcap) as (c' & Hsl & _).
  exists (rms x), c'. split; [exact Hsl|].
  split; [split; [apply rms_nonneg | now apply rms_bound]|].
  pose proof (rms_zero_iff x Hne) as Hz. rewrite Hlen in Hz. exact Hz.
Qed.

Lemma sound_level_range_witness :
  exists level c',
    sound_level (repeat 512%Z 160) init = Ok (level, c') /\
    (0 <= level <= 65535)%R.
Proof.
  assert (Hr : Forall (fun v => 0 <= v < 65536)%Z (repeat 512%Z 160))
    by (apply Forall_forall; intros v Hv; apply repeat_spec in Hv; lia).
  destruct (sound_level_range (repeat 512%Z 160) init
              (repeat_length 512%Z 160) Hr (or_introl eq_refl))
    as (level & c' & H & Hb & _).
  exists level, c'. split; assumption.
Defined.

(** X9: [loud_sound(threshold)] succeeds with the state [sound_level]
    leaves, and answers whether the level is strictly above the threshold:
    a level equal to the threshold is not loud, equal samples are never
    loud for a threshold of 0 or more, and nothing is loud for a threshold
    of 65535 or more. *)
Theorem loud_sound_threshold (threshold : R) (x : list Z) (c : Clue) :
  length x = 160 ->
  Forall (fun v => 0 <= v < 65536)%Z x ->
  can_capture c ->
  exists level c' loud,
    sound_level x c = Ok (level, c') /\
    loud_sound threshold x c = Ok (loud, c') /\
    (loud = true <-> (threshold < level)%R) /\
    (threshold = level -> loud = false) /\
    ((65535 <= threshold)%R -> loud = false) /\
    ((0 <= threshold)%R -> (exists v, x = repeat v 160) -> loud = false).
Proof.
  intros Hlen Hr Hcap.
  assert (Hne : x <> []) by (intros ->; simpl in Hlen; discriminate Hlen).
  destruct (sound_level_ok x c Hlen Hcap) as (c' & Hsl & _).
  pose proof (rms_nonneg x) as H0. pose proof (rms_bound x Hne Hr) as H1.
  pose proof (rms_zero_iff x Hne) as Hz. rewrite Hlen in Hz.
  exists (rms x), c', (if Rlt_dec threshold (rms x) then true else false).
  split; [exact Hsl|].
  split; [unfold loud_sound; rewrite Hsl; reflexivity|].
  destruct (Rlt_dec threshold (rms x)) as [Hlt|Hge].
  - repeat split; auto; intros; try lra.
    assert (rms x = 0%R) by (apply Hz; assumption). lra.
  - repeat split; auto; intros; try discriminate; tauto.
Qed.

Lemma loud_sound_threshold_witness :
  exists c', loud_sound 200 (repeat 512%Z 160) init = Ok (false, c').
Proof.
  assert (Hr : Forall (fun v => 0 <= v < 65536)%Z (repeat 512%Z 160))
    by (apply Forall_forall; intros v Hv; apply repeat_spec in Hv; lia).
  destruct (loud_sound_threshold 200 (repeat 512%Z 160) init
              (repeat_length 512%Z 160) Hr (or_introl eq_refl))
    as (level & c' & loud & _ & Hl & _ & _ & _ & Hc).
  exists c'. rewrite Hl. f_equal. f_equal. apply Hc; [lra|].
  exists 512%Z. reflexivity.
Defined.

Lemma sum_map_offset (k : Z) (xs : list Z) :
  Py.sum (map (fun v => v + k)%Z xs) =
  (Py.sum xs + k * Z.of_nat (length xs))%Z.
Proof.
  induction xs as [|x xs IH]; [unfold Py.sum; simpl; lia|].
  simpl map. rewrite !sum_cons, IH. simpl length. lia.
Qed.

Lemma sum_nonneg_all (xs : list Z) :
  Forall (fun v => 0 <= v)%Z xs -> (0 <= Py.sum xs)%Z.
Proof.
  induction 1 as [|x xs Hx _ IH]; [unfold Py.sum; simpl; lia|].
  rewrite sum_cons. lia.
Qed.

Lemma rms_offset (k : Z) (values : list Z) :
  values <> [] ->
  Forall (fun v => 0 <= v)%Z values ->
  Forall (fun v => 0 <= v + k)%Z values ->
  rms (map (fun v => v + k)%Z values) = rms values.
Proof.
  intros Hne H0 Hk.
  assert (Hn : (0 < Z.of_nat (length values))%Z)
    by (destruct values; [congruence | simpl; lia]).
  assert (Hk' : Forall (fun v => 0 <= v)%Z (map (fun v => v + k)%Z values))
    by (apply Forall_map; exact Hk).
  pose proof (sum_nonneg_all _ H0) as Hs0.
  pose proof (sum_nonneg_all _ Hk') as Hs1.
  assert (Hm : mean_value (map (fun v => v + k)%Z values) =
               (mean_value values + k)%Z).
  { unfold mean_value. rewrite length_map.
    rewrite !Z.quot_div_nonneg by lia.
    rewrite sum_map_offset. apply Z.div_add. lia. }
  unfold rms, squared_deviations. rewrite Hm, length_map, map_map.
  do 4 f_equal. apply map_ext. intros v. f_equal; lia.
Qed.

(** X10: on a buffer as [sound_level] passes it (at most 160 unsigned
    16-bit samples, not empty), [_normalized_rms] ignores a constant
    offset: adding the same integer to every sample, the samples staying
    unsigned 16-bit, leaves the result unchanged, because the truncated mean
    moves by exactly that integer. *)
Theorem normalized_rms_offset (k : Z) (values : list Z) :
  values <> [] ->
  (length values <= 160)%nat ->
  Forall (fun v => 0 <= v < 65536)%Z values ->
  Forall (fun v => 0 <= v + k < 65536)%Z values ->
  mean_value (map (fun v => v + k)%Z values) = (mean_value values + k)%Z /\
  _normalized_rms (map (fun v => v + k)%Z values) = _normalized_rms values.
Proof.
  intros Hne _ H0 Hk.
  assert (H0' : Forall (fun v => 0 <= v)%Z values)
    by (eapply Forall_impl; [|exact H0]; simpl; intros; lia).
  assert (Hk' : Forall (fun v => 0 <= v + k)%Z values)
    by (eapply Forall_impl; [|exact Hk]; simpl; intros; lia).
  assert (Hne' : map (fun v => v + k)%Z values <> [])
    by (destruct values; [congruence | discriminate]).
  split.
  - assert (Hn : (0 < Z.of_nat (length values))%Z)
      by (destruct values; [congruence | simpl; lia]).
    pose proof (sum_nonneg_all _ H0') as Hs0.
    assert (Hs1 : (0 <= Py.sum (map (fun v => v + k)%Z values))%Z)
      by (apply sum_nonneg_all, Forall_map; exact Hk').
    unfold mean_value. rewrite length_map.
    rewrite !Z.quot_div_nonneg by lia.
    rewrite sum_map_offset. apply Z.div_add. lia.
  - rewrite !normalized_rms_rms by assumption.
    f_equal. now apply rms_offset.
Qed.

Lemma normalized_rms_offset_witness :
  _normalized_rms (map (fun v => v + 1000)%Z [3; 9; 4]%Z) =
  _normalized_rms [3; 9; 4]%Z.
Proof.
  apply normalized_rms_offset;
    [discriminate | simpl; lia | repeat constructor; lia
    | repeat constructor; lia].
Defined.

(** X11: on at most 160 unsigned 16-bit samples [_normalized_rms] fails
    only for an empty buffer, with ZeroDivisionError; on every other such
    buffer it returns a level between 0 and 65535 (the square root never
    sees a negative number). *)
Theorem normalized_rms_total (values : list Z) :
  (length values <= 160)%nat ->
  Forall (fun v => 0 <= v < 65536)%Z values ->
  match values with
  | [] => _normalized_rms values = Raise ZeroDivisionError
  | _ :: _ =>
      exists level,
        _normalized_rms values = Ok level /\ (0 <= level <= 65535)%R
  end.
Proof.
  intros _ Hr. destruct values as [|v values]; [reflexivity|].
  exists (rms (v :: values)).
  split; [apply normalized_rms_rms; discriminate|].
  split; [apply rms_nonneg | apply rms_bound; [discriminate | exact Hr]].
Qed.

Lemma normalized_rms_total_witness :
  exists level,
    _normalized_rms [3; 9; 4]%Z = Ok level /\ (0 <= level <= 65535)%R.
Proof.
  apply (normalized_rms_total [3; 9; 4]%Z);
    [simpl; lia | repeat constructor; lia].
Defined.

(** X12: a [sound_level] call made while no audio handle exists allocates
    a new buffer (a new object, the allocation counter advances), also when
    a buffer from an earlier call exists; a call made while a handle exists
    captures into the existing buffer in place and allocates nothing. *)
Theorem sound_level_allocation (x : list Z) (c : Clue) :
  length x = 160 ->
  (_sample c = None ->
   exists level c',
     sound_level x c = Ok (level, c') /\
     _samples c' = Some {| arr_id := next_id c; arr_data := x |} /\
     next_id c' = S (next_id c)) /\
  (forall h buf,
     _sample c = Some h -> _samples c = Some buf ->
     length (arr_data buf) = 160 ->
     exists level c',
       sound_level x c = Ok (level, c') /\
       _samples c' = Some {| arr_id := arr_id buf; arr_data := x |} /\
       next_id c' = next_id c).
Proof.
  intros Hlen.
  assert (Hne : x <> []) by (intros ->; simpl in Hlen; discriminate Hlen).
  split.
  - intros Hs. do 2 eexists.
    rewrite (sound_level_no_handle x c Hs Hlen), normalized_rms_rms
      by assumption.
    repeat split.
  - intros h buf Hs Hb Hbl. do 2 eexists.
    rewrite (sound_level_handle_buffer x c h buf Hs Hb Hbl Hlen),
      normalized_rms_rms by assumption.
    repeat split.
Qed.

Lemma sound_level_allocation_witness :
  exists level c',
    sound_level (repeat 0%Z 160) init = Ok (level, c') /\
    next_id c' = 1.
Proof.
  destruct (sound_level_allocation (repeat 0%Z 160) init
              (repeat_length 0%Z 160)) as [H _].
  destruct (H eq_refl) as (level & c' & Hsl & _ & Hn).
  exists level, c'. split; assumption.
Defined.

(** X13: whenever [sound_level] returns, the tone player is as it was: the
    same handle, table and raw sample, the same number of open sessions,
    and the only driver call made is one microphone capture. *)
Theorem sound_level_keeps_tone (x : list Z) (c : Clue) (level : R)
    (c' : Clue) :
  sound_level x c = Ok (level, c') ->
  _sample c' = _sample c /\ _sine_wave c' = _sine_wave c /\
  _sine_wave_sample c' = _sine_wave_sample c /\
  tone_state c' = tone_state c /\
  open_sessions (hw_log c') = open_sessions (hw_log c) /\
  exists n, hw_log c' = MicRecord n :: hw_log c.
Proof.
  unfold sound_level, tone_state, is_playing.
  destruct (_sample c) as [h|] eqn:Hs.
  - cbn [bind]. destruct (_samples c) as [buf|] eqn:Hbuf; [|discriminate].
    cbn [option_map Py.len Py.attr bind]. unfold mic_record.
    destruct (_normalized_rms _); [|discriminate].
    cbn [bind]. intros H. injection H as _ <-. cbn. rewrite Hs.
    repeat split. eexists. reflexivity.
  - unfold new_array.
    change (Py.array_H (repeat 0%Z 160)) with (@Ok (list Z) (repeat 0%Z 160)).
    generalize (repeat 0%Z 160). intros zeros.
    cbn [bind alloc set_samples _samples option_map arr_data Py.len Py.attr].
    unfold mic_record. destruct (_normalized_rms _); [|discriminate].
    cbn [bind]. intros H. injection H as _ <-. cbn. rewrite Hs.
    repeat split. eexists. reflexivity.
Qed.

Lemma sound_level_keeps_tone_witness :
  tone_state
    (captured_into {| arr_id := 0; arr_data := repeat 0%Z 160 |}
       (repeat 0%Z 160) (snd (alloc init))) = tone_state init.
Proof.
  assert (Hsl : sound_level (repeat 0%Z 160) init =
                Ok (rms (repeat 0%Z 160),
                    captured_into {| arr_id := 0; arr_data := repeat 0%Z 160 |}
                      (repeat 0%Z 160) (snd (alloc init)))).
  { rewrite sound_level_no_handle by reflexivity.
    rewrite normalized_rms_rms by discriminate. reflexivity. }
  now destruct (sound_level_keeps_tone _ _ _ _ Hsl) as (_ & _ & _ & H & _).
Defined.

Lemma start_tone_keeps_samples (f : Z) (c c' : Clue) :
  start_tone f c = Ok c' -> _samples c' = _samples c.
Proof.
  destruct (_sample c) as [h|] eqn:Hs.
  - unfold start_tone. rewrite requested_length. cbn [bind].
    rewrite (generate_sample_held _ _ _ Hs). cbn [bind].
    destruct (_sine_wave c) as [wave|]; [|discriminate].
    cbn [option_map Py.len bind].
    destruct (_sine_wave_sample c) as [rs|]; [|discriminate].
    cbn [Py.attr bind set_sine_wave_sample _sample]. rewrite Hs.
    cbn [Py.attr bind]. destruct (playing h); cbn [negb].
    + intros H. injection H as <-. reflexivity.
    + unfold pwm_play. intros H. injection H as <-. reflexivity.
  - rewrite start_tone_idle by assumption. intros H. injection H as <-.
    reflexivity.
Qed.

Lemma stop_tone_keeps_samples (c c' : Clue) :
  stop_tone c = Ok c' -> _samples c' = _samples c.
Proof.
  unfold stop_tone. destruct (_sample c) as [h|].
  - destruct (playing h); intros H; injection H as <-; reflexivity.
  - intros H. injection H as <-. reflexivity.
Qed.

(** X14: [start_tone], [stop_tone] and [play_tone] never touch the sample
    buffer: whenever one of them returns, [_samples] is the object it was,
    with the same content. *)
Theorem tone_calls_keep_samples (k : Call) (c c' : Clue) :
  (forall x, k <> CallSoundLevel x) ->
  run_call k c = Ok c' ->
  _samples c' = _samples c.
Proof.
  intros Hk. destruct k as [f| |f d|x]; simpl.
  - apply start_tone_keeps_samples.
  - apply stop_tone_keeps_samples.
  - unfold play_tone.
    destruct (start_tone f c) as [c1|e] eqn:H1; [|discriminate].
    cbn [bind]. unfold sleep. destruct (Rlt_dec d 0); [discriminate|].
    cbn [bind]. intros H3. apply stop_tone_keeps_samples in H3.
    apply start_tone_keeps_samples in H1. rewrite H3. exact H1.
  - now destruct (Hk x).
Qed.

Lemma tone_calls_keep_samples_witness :
  _samples (started 440 init) = _samples init.
Proof.
  apply (tone_calls_keep_samples (CallStart 440) init (started 440 init));
    [discriminate | apply start_tone_idle; reflexivity].
Defined.

(** ** More on the tone player *)

Lemma table_length_low (f : Z) : (f <= 3500)%Z -> table_length f = 100%Z.
Proof.
  intros Hf. unfold table_length.
  destruct (100 * f >? 350000)%Z eqn:Hgt; [|reflexivity].
  apply Z.gtb_lt in Hgt. lia.
Qed.

Lemma table_length_high (f : Z) :
  (3500 < f)%Z -> table_length f = (350000 / f)%Z.
Proof.
  intros Hf. unfold table_length.
  destruct (100 * f >? 350000)%Z eqn:Hgt; [reflexivity|].
  destruct (Z.gtb_spec (100 * f) 350000); [discriminate | lia].
Qed.

(** X15: the 350000 samples-per-second bound on the playback rate holds
    for a tone started after a stop, not for a frequency change while a
    tone plays: with f1 <= 3500 < f2, [start_tone(f1)] then [start_tone(f2)]
    leaves the rate at 100 * f2, above the bound, while with a [stop_tone]
    in between the rate is (350000 // f2) * f2, within it. *)
Theorem rate_bound_needs_stop (f1 f2 : Z) (c : Clue) :
  _sample c = None ->
  (0 < f1 <= 3500)%Z -> (3500 < f2)%Z ->
  (exists c' rs,
     run_calls [CallStart f1; CallStart f2] c = Ok c' /\
     _sine_wave_sample c' = Some rs /\
     sample_rate rs = (100 * f2)%Z /\ (350000 < sample_rate rs)%Z) /\
  (exists c' rs,
     run_calls [CallStart f1; CallStop; CallStart f2] c = Ok c' /\
     _sine_wave_sample c' = Some rs /\
     sample_rate rs = (350000 / f2 * f2)%Z /\
     (sample_rate rs <= 350000)%Z).
Proof.
  intros Hs Hf1 Hf2.
  assert (Hq : (0 <= 350000 / f2)%Z) by (apply Z.div_pos; lia).
  pose proof (Z.mul_div_le 350000 f2 ltac:(lia)) as Hmul.
  split.
  - do 2 eexists. cbn [run_calls run_call].
    rewrite (start_tone_idle f1 c Hs). cbn [bind].
    erewrite start_tone_held by reflexivity. cbn [bind].
    split; [reflexivity|]. split; [reflexivity|].
    cbn [sample_rate arr_data]. rewrite sine_table_length, table_length_low by lia.
    change (Z.of_nat (Z.to_nat 100)) with 100%Z. lia.
  - do 2 eexists. cbn [run_calls run_call].
    rewrite (start_tone_idle f1 c Hs). cbn [bind].
    erewrite stop_tone_held by reflexivity. cbn [bind].
    rewrite start_tone_idle by reflexivity. cbn [bind].
    split; [reflexivity|]. split; [reflexivity|].
    cbn [sample_rate arr_data started _sine_wave_sample].
    rewrite sine_table_length, table_length_high, Z2Nat.id by lia.
    split; [reflexivity|]. rewrite Z.mul_comm. exact Hmul.
Qed.

Lemma rate_bound_needs_stop_witness :
  exists c' rs,
    run_calls [CallStart 262; CallStart 7000] init = Ok c' /\
    _sine_wave_sample c' = Some rs /\ (350000 < sample_rate rs)%Z.
Proof.
  destruct (rate_bound_needs_stop 262 7000 init eq_refl) as [H _];
    [lia | lia |].
  destruct H as (c' & rs & H1 & H2 & _ & H3).
  exists c', rs. repeat split; assumption.
Defined.



(** X17: [start_tone] rejects no integer frequency. On a player without a
    handle it always ends Playing with rate len(table) * f: for f <= 3500,
    zero and negative values included, the table has 100 entries (so the
    rate is zero or negative for f <= 0); for f > 350000 the table is empty
    and the rate is 0. *)
Theorem start_tone_any_frequency (f : Z) (c : Clue) :
  _sample c = None ->
  exists c' wave rs,
    start_tone f c = Ok c' /\
    _sine_wave c' = Some wave /\ _sine_wave_sample c' = Some rs /\
    tone_state c' = Playing /\
    sample_rate rs = (Z.of_nat (length (arr_data wave)) * f)%Z /\
    ((f <= 3500)%Z -> length (arr_data wave) = 100) /\
    ((f <= 0)%Z -> (sample_rate rs <= 0)%Z) /\
    ((350000 < f)%Z -> arr_data wave = [] /\ sample_rate rs = 0%Z).
Proof.
  intros Hs. do 3 eexists.
  split; [apply start_tone_idle; exact Hs|].
  cbn [started _sine_wave _sine_wave_sample sample_rate arr_data].
  split; [reflexivity|]. split; [reflexivity|]. split; [reflexivity|].
  split; [reflexivity|].
  assert (Hlow : (f <= 3500)%Z -> length (sine_table (table_length f)) = 100).
  { intros Hf. now rewrite sine_table_length, table_length_low. }
  split; [exact Hlow|]. split.
  - intros Hf. cbn [sample_rate]. rewrite Hlow by lia. lia.
  - intros Hf.
    assert (Hnil : sine_table (table_length f) = []).
    { apply length_zero_iff_nil.
      rewrite sine_table_length, table_length_high by lia.
      now rewrite Z.div_small by lia. }
    cbn [sample_rate]. rewrite Hnil. split; reflexivity.
Qed.

Lemma start_tone_any_frequency_witness :
  exists c' rs,
    start_tone (-5) init = Ok c' /\ _sine_wave_sample c' = Some rs /\
    (sample_rate rs <= 0)%Z.
Proof.
  destruct (start_tone_any_frequency (-5) init eq_refl)
    as (c' & wave & rs & H1 & _ & H2 & _ & _ & _ & H3 & _).
  exists c', rs. repeat split; [exact H1 | exact H2 | apply H3; lia].
Defined.

Lemma wf_open_sessions (c : Clue) :
  wf c ->
  (open_sessions (hw_log c) <= 1)%nat /\
  (open_sessions (hw_log c) = 1 <-> tone_state c = Playing) /\
  (_sample c = None <-> tone_state c = Idle) /\
  (forall b, _samples c = Some b -> length (arr_data b) = 160).
Proof.
  intros [Ha Hb]. unfold tone_state, is_playing.
  destruct (_sample c) as [h|].
  - destruct Ha as (-> & -> & _). repeat split; auto; try discriminate.
    intros b Hbuf. now rewrite Hbuf in Hb.
  - rewrite Ha. repeat split; auto; try discriminate.
    intros b Hbuf. now rewrite Hbuf in Hb.
Qed.

(** X18: in every state the public calls ([start_tone], [stop_tone],
    [play_tone], [sound_level], in any order and number) reach from a new
    [Clue], at most one audio-output session is open; one is open exactly
    when a tone plays, the handle is [None] exactly when the player is
    Idle, and a sample buffer, if present, has 160 slots. *)
Theorem reachable_invariant (ks : list Call) (c : Clue) :
  run_calls ks init = Ok c ->
  (open_sessions (hw_log c) <= 1)%nat /\
  (open_sessions (hw_log c) = 1 <-> tone_state c = Playing) /\
  (_sample c = None <-> tone_state c = Idle) /\
  (forall b, _samples c = Some b -> length (arr_data b) = 160).
Proof.
  intros Hrun. apply wf_open_sessions.
  exact (wf_run_calls ks init c wf_init Hrun).
Qed.

Lemma reachable_invariant_witness :
  (open_sessions (hw_log (started 440 init)) <= 1)%nat.
Proof.
  apply (reachable_invariant [CallStart 440] (started 440 init)).
  cbn [run_calls run_call]. rewrite start_tone_idle by reflexivity.
  reflexivity.
Defined.

(** ** More on the waveform *)

Section Shape.

Open Scope R_scope.

Lemma angle_first_half (L i : Z) :
  (0 < L)%Z -> (0 <= i)%Z -> (2 * i <= L)%Z ->
  0 <= 2 * PI * (IZR i / IZR L) <= PI.
Proof.
  intros HL Hi Hhalf. pose proof PI_RGT_0 as Hpi.
  apply IZR_lt in HL. apply IZR_le in Hi, Hhalf. rewrite mult_IZR in Hhalf.
  assert (Hq : 0 <= IZR i / IZR L <= 1 / 2).
  { split.
    - apply Rmult_le_pos; [lra | left; now apply Rinv_0_lt_compat].
    - apply Rmult_le_reg_r with (IZR L); [lra|].
      unfold Rdiv. rewrite Rmult_assoc, Rinv_l by lra. lra. }
  split; nra.
Qed.

Lemma angle_second_half (L i : Z) :
  (0 < L)%Z -> (L <= 2 * i)%Z -> (i <= L)%Z ->
  PI <= 2 * PI * (IZR i / IZR L) <= 2 * PI.
Proof.
  intros HL Hhalf Hi. pose proof PI_RGT_0 as Hpi.
  apply IZR_lt in HL. apply IZR_le in Hi, Hhalf. rewrite mult_IZR in Hhalf.
  assert (Hq : 1 / 2 <= IZR i / IZR L <= 1).
  { split.
    - apply Rmult_le_reg_r with (IZR L); [lra|].
      unfold Rdiv at 2. rewrite Rmult_assoc, Rinv_l by lra. lra.
    - apply Rmult_le_reg_r with (IZR L); [lra|].
      unfold Rdiv. rewrite Rmult_assoc, Rinv_l by lra. lra. }
  split; nra.
Qed.

Lemma sine_real_volume (L i : Z) :
  sine_real L i = 32767 * sin (2 * PI * (IZR i / IZR L)) + 32768.
Proof.
  unfold sine_real.
  replace (IZR tone_volume) with 32767 by (unfold tone_volume; simpl; lra).
  replace (IZR shift) with 32768 by (unfold shift; simpl; lra).
  reflexivity.
Qed.

Lemma sine_value_first_half (L i : Z) :
  (0 < L)%Z -> (0 <= i)%Z -> (2 * i <= L)%Z ->
  (32768 <= sine_value L i <= 65535)%Z.
Proof.
  intros HL Hi Hhalf. rewrite sine_value_floor.
  destruct (angle_first_half L i HL Hi Hhalf) as [H0 H1].
  pose proof (sin_ge_0 _ H0 H1) as Hsin.
  pose proof (sine_real_bounds L i) as [_ Hhi].
  apply Int_part_between; [|exact Hhi].
  rewrite sine_real_volume. lra.
Qed.

Lemma sine_value_second_half (L i : Z) :
  (0 < L)%Z -> (L <= 2 * i)%Z -> (i <= L)%Z ->
  (1 <= sine_value L i <= 32768)%Z.
Proof.
  intros HL Hhalf Hi. rewrite sine_value_floor.
  destruct (angle_second_half L i HL Hhalf Hi) as [H0 H1].
  pose proof (sin_le_0 _ H0 H1) as Hsin.
  pose proof (sine_real_bounds L i) as [Hlo _].
  apply Int_part_between; [exact Hlo|].
  rewrite sine_real_volume. lra.
Qed.

End Shape.

(** X20: the table of a positive length [L] is one period around the
    midpoint 32768: entry 0 is 32768, the entries of the first half (2 * i
    <= L) lie in [32768, 65535], those of the second half (L <= 2 * i) lie
    in [1, 32768]; in particular no entry is 0 and, for even [L], the
    middle entry is 32768. *)
Theorem sine_table_shape (L : Z) :
  (0 < L)%Z ->
  nth 0 (sine_table L) 0%Z = 32768%Z /\
  (forall i, (0 <= i < L)%Z ->
     let v := nth (Z.to_nat i) (sine_table L) 0%Z in
     (1 <= v <= 65535)%Z /\
     ((2 * i <= L)%Z -> (32768 <= v)%Z) /\
     ((L <= 2 * i)%Z -> (v <= 32768)%Z)) /\
  (forall v, In v (sine_table L) -> v <> 0%Z).
Proof.
  intros HL.
  assert (Hnth : forall i, (0 <= i < L)%Z ->
            nth (Z.to_nat i) (sine_table L) 0%Z = sine_value L i)
    by (intros i Hi; apply sine_table_nth; exact Hi).
  split.
  { change 0%nat with (Z.to_nat 0). rewrite Hnth by lia.
    pose proof (sine_value_first_half L 0 HL (Z.le_refl 0) ltac:(lia)).
    assert (H0 : (sine_value L 0 <= 32768)%Z).
    { rewrite sine_value_floor. apply Int_part_between with (lo := 1%Z).
      - apply sine_real_bounds.
      - rewrite sine_real_volume. unfold Rdiv.
        rewrite Rmult_0_l, Rmult_0_r, sin_0. lra. }
    lia. }
  split.
  - intros i Hi v. subst v. rewrite Hnth by exact Hi.
    split; [apply sine_value_range|]. split; intros Hh.
    + apply sine_value_first_half; lia.
    + apply sine_value_second_half; lia.
  - intros v Hv. unfold sine_table in Hv. rewrite gen_list_sine_sample in Hv.
    apply in_map_iff in Hv as (i & <- & _).
    pose proof (sine_value_range L i). lia.
Qed.

Lemma sine_table_shape_witness : nth 0 (sine_table 100) 0%Z = 32768%Z.
Proof.
  apply (sine_table_shape 100). lia.
Defined.
